(** * Public/private key pairs protecting master keys (packages/lib/services/e2ee/ppk.ts)

    A shallow embedding of [ppk.ts].  The file is glue code between three
    collaborators that live outside of it:

    - the [node-rsa] package (key generation, PEM import and export, OAEP
      encryption), embedded as the interface [NodeRSA.Api];
    - the [EncryptionService] class (password based encryption), embedded as
      the record [EncryptionService.t] for its cipher primitives, its master
      key methods being modelled on top of them;
    - the JavaScript runtime ([JSON], [Buffer], [Date]) and the [uuid]
      helper, embedded as the interface [Runtime].

    [ppkGenerateMasterKey] only loads a key pair and delegates to the
    service's [generateMasterKey]; it is left out.

    [async] functions become computations in a state and exception monad
    [M] over a [World] that holds what the code can observe or change:
    the entropy source, the clock, the settings, the JavaScript objects that
    are passed by reference (master keys, sync infos), the data saved by
    [saveLocalSyncInfo] and a ghost trace of the calls made to the
    collaborators. *)

From Stdlib Require Import ZArith NArith.
From Stdlib.Strings Require Import Ascii String Byte.
From stdpp Require Import base option list strings gmap.

Local Open Scope string_scope.

(** ** Exceptions and results *)

(** [throw new Error(message)], and the two errors the runtime itself
    raises. *)
Inductive Exn : Type :=
  | Error (message : string)
  | TypeError (message : string)
  | SyntaxError (message : string).

Inductive Result (A : Type) : Type :=
  | Ok (a : A)
  | Throw (e : Exn).
Arguments Ok {A} a.
Arguments Throw {A} e.

Definition isOk {A} (r : Result A) : bool :=
  match r with Ok _ => true | Throw _ => false end.

(** ** Data model of ppk.ts *)

(** [EncryptionMethod] is an enum of EncryptionService.ts; ppk.ts names two
    of its members, the others are kept by their numeric code. *)
Inductive EncryptionMethod : Type :=
  | SJCL4
  | Custom
  | OtherMethod (code : Z).

#[global] Instance EncryptionMethod_eq_dec : EqDecision EncryptionMethod.
Proof. solve_decision. Defined.

Record PrivateKey : Type := {
  encryptionMethod : EncryptionMethod;
  ciphertext : string;
}.

Definition PublicKey : Type := string.

Record PublicPrivateKeyPair : Type := {
  id : string;
  publicKey : PublicKey;
  privateKey : PrivateKey;
  createdTime : Z;
}.

(** ** JavaScript values, as [JSON.parse] returns them

    Floating point numbers are not modelled: a number is carried by its
    canonical decimal rendering, which is all the code can observe of it
    (through string interpolation). *)
#[warnings="-register-all"]
Inductive JsVal : Type :=
  | JUndefined
  | JNull
  | JBool (b : bool)
  | JNum (repr : string)
  | JStr (s : string)
  | JArr (items : list JsVal)
  | JObj (fields : list (string * JsVal)).

(** First binding of [name] in the fields of an object literal. *)
Fixpoint lookupField (fields : list (string * JsVal)) (name : string) : JsVal :=
  match fields with
  | [] => JUndefined
  | (k, v) :: rest => if String.eqb k name then v else lookupField rest name
  end.

(** [value.name] for a name that is neither [length] nor an index: only an
    object has such a property, the other values read as [undefined], and
    reading a property of [null] or [undefined] throws. *)
Definition getProp (value : JsVal) (name : string) : Result JsVal :=
  match value with
  | JUndefined => Throw (TypeError ("Cannot read properties of undefined (reading '" +:+ name +:+ "')"))
  | JNull => Throw (TypeError ("Cannot read properties of null (reading '" +:+ name +:+ "')"))
  | JObj fields => Ok (lookupField fields name)
  | _ => Ok JUndefined
  end.

(** [value !== s] for a string [s]: strict inequality holds unless [value]
    is the same string. *)
Definition strictNotEqualString (value : JsVal) (s : string) : bool :=
  match value with
  | JStr t => negb (String.eqb t s)
  | _ => true
  end.

Fixpoint joinWith (sep : string) (parts : list string) : string :=
  match parts with
  | [] => ""
  | [p] => p
  | p :: rest => p +:+ sep +:+ joinWith sep rest
  end.

(** Whether an object has an own property [name]. *)
Fixpoint hasField (fields : list (string * JsVal)) (name : string) : bool :=
  match fields with
  | [] => false
  | (k, _) :: rest => String.eqb k name || hasField rest name
  end.

(** [Array.prototype.join] over the conversions of the elements: the
    first one that throws, from the left, throws. *)
Fixpoint joinResults (sep : string) (parts : list (Result string)) : Result string :=
  match parts with
  | [] => Ok ""
  | Throw e :: _ => Throw e
  | Ok p :: rest =>
      match rest with
      | [] => Ok p
      | _ :: _ =>
          match joinResults sep rest with
          | Ok joined => Ok (p +:+ sep +:+ joined)
          | Throw e => Throw e
          end
      end
  end.

(** The string conversion of a template literal [`${value}`].  A value
    that [JSON.parse] returned holds no function: an object converts through
    [Object.prototype.toString], unless it has an own [toString] property,
    which is then not callable, and neither it nor [valueOf] gives a
    primitive: the conversion throws a [TypeError].  An array converts
    through [join], which leaves [undefined] and [null] elements empty. *)
Fixpoint ToString (value : JsVal) : Result string :=
  match value with
  | JUndefined => Ok "undefined"
  | JNull => Ok "null"
  | JBool true => Ok "true"
  | JBool false => Ok "false"
  | JNum repr => Ok repr
  | JStr s => Ok s
  | JArr items =>
      joinResults ","
        (map (fun item => match item with
                          | JUndefined | JNull => Ok ""
                          | _ => ToString item
                          end) items)
  | JObj fields =>
      if hasField fields "toString"
      then Throw (TypeError "Cannot convert object to primitive value")
      else Ok "[object Object]"
  end.

(** ** The world *)

(** Randomness is drawn from a seed that every consumer advances. *)
Definition Entropy : Type := N.

(** References to JavaScript objects. *)
Definition loc : Type := positive.

(** Field values of a [MasterKeyEntity]. *)
Inductive FieldValue : Type :=
  | FString (s : string)
  | FNumber (n : Z)
  | FBoolean (b : bool)
  | FMethod (m : EncryptionMethod).

(** Modelled from the spec: [MasterKeyEntity] (./types) is missing; it is "a
    record holding encrypted symmetric key material plus metadata describing
    which encryption method/scheme protects it", whose full schema this core
    does not define.  It is embedded as the JavaScript object it is, a finite
    map from field names to values; the encrypted material is the field
    [content] and the method the field [encryption_method]. *)
Abbreviation MasterKeyEntity := (gmap string FieldValue).

(** Modelled from the spec: [SyncInfo] (../synchronizer/syncInfoUtils) is
    missing; it "holds at most one active KeyPair reference ([ppk]) and the
    set of known master keys", here with the field that names the active
    one. *)
Record SyncInfo : Type := {
  ppk : option PublicPrivateKeyPair;
  masterKeys : list loc;
  activeMasterKeyId : string;
}.

(** Ghost record of the calls made to the collaborators. *)
Inductive Call : Type :=
  | CallGenerateKeyPair (bits exponent : Z)
  | CallRsaEncrypt
  | CallRsaDecrypt
  | CallServiceEncrypt (method : EncryptionMethod)
  | CallServiceDecrypt (method : EncryptionMethod)
  | CallSaveLocalSyncInfo.

Record World : Type := mkWorld {
  rng : Entropy;
  clock : Z;
  settings : gmap string string;
  entities : gmap loc MasterKeyEntity;
  syncInfos : gmap loc SyncInfo;
  savedLocalSyncInfo : list SyncInfo;
  trace : list Call;
}.

Definition setRng (e : Entropy) (w : World) : World :=
  mkWorld e (clock w) (settings w) (entities w) (syncInfos w) (savedLocalSyncInfo w) (trace w).
Definition setEntities (h : gmap loc MasterKeyEntity) (w : World) : World :=
  mkWorld (rng w) (clock w) (settings w) h (syncInfos w) (savedLocalSyncInfo w) (trace w).
Definition setSyncInfos (h : gmap loc SyncInfo) (w : World) : World :=
  mkWorld (rng w) (clock w) (settings w) (entities w) h (savedLocalSyncInfo w) (trace w).
Definition setSaved (s : list SyncInfo) (w : World) : World :=
  mkWorld (rng w) (clock w) (settings w) (entities w) (syncInfos w) s (trace w).
Definition logCall (c : Call) (w : World) : World :=
  mkWorld (rng w) (clock w) (settings w) (entities w) (syncInfos w) (savedLocalSyncInfo w) (trace w ++ [c]).

(** ** The monad of asynchronous, throwing computations *)

Definition M (A : Type) : Type := World -> Result A * World.

Definition ret {A} (a : A) : M A := fun w => (Ok a, w).

Definition throw {A} (e : Exn) : M A := fun w => (Throw e, w).

Definition bind {A B} (m : M A) (k : A -> M B) : M B :=
  fun w =>
    match m w with
    | (Ok a, w') => k a w'
    | (Throw e, w') => (Throw e, w')
    end.

(** [try { m } catch (error) { handler error }]: what [m] did to the world
    before it threw stays done. *)
Definition tryCatch {A} (m : M A) (handler : Exn -> M A) : M A :=
  fun w =>
    match m w with
    | (Ok a, w') => (Ok a, w')
    | (Throw e, w') => handler e w'
    end.

(** A call that only returns or throws. *)
Definition liftR {A} (r : Result A) : M A := fun w => (r, w).

(** A call that draws randomness. *)
Definition withEntropy {A} (f : Entropy -> Result A * Entropy) : M A :=
  fun w => let '(r, e) := f (rng w) in (r, setRng e w).

Definition tell (c : Call) : M unit := fun w => (Ok tt, logCall c w).

Notation "'let!' x ':=' m 'in' k" := (bind m (fun x => k))
  (at level 10, x name, m at level 100, k at level 200).
Notation "m ';;!' k" := (bind m (fun _ => k))
  (at level 100, k at level 200, right associativity).

(** ** The collaborators *)

Inductive Encoding : Type := Hex | Utf8.

Inductive KeyFormat : Type := Pkcs1PrivatePem | Pkcs1PublicPem.

Definition Buffer : Type := list Byte.byte.

(** The [node-rsa] package.  A key object is created empty, configured,
    and then filled by generating or importing keys; ppk.ts never shares
    one, so its mutation is embedded as functional update. *)
Module NodeRSA.

Record Options : Type := { encryptionScheme : string }.

Class Api (Key : Type) : Type := {
  (** [new NodeRSA()] *)
  new : Key;
  setOptions : Key -> Options -> Key;
  generateKeyPair : Key -> Z -> Z -> Entropy -> Key * Entropy;
  isPrivate : Key -> bool;
  isPublic : Key -> bool;
  exportKey : Key -> KeyFormat -> Result string;
  importKey : Key -> string -> KeyFormat -> Result Key;
  (** [key.encrypt(data, encoding)] of a string [data] *)
  encrypt : Key -> string -> Encoding -> Entropy -> Result string * Entropy;
  (** [key.decrypt(buffer, encoding)] *)
  decrypt : Key -> Buffer -> Encoding -> Result string;
}.

End NodeRSA.

(** The cipher primitives of the [EncryptionService] class. *)
Module EncryptionService.

Record t : Type := {
  encrypt : EncryptionMethod -> string -> string -> Entropy -> Result string * Entropy;
  decrypt : EncryptionMethod -> string -> string -> Result string;
  defaultMasterKeyEncryptionMethod : EncryptionMethod;
}.

End EncryptionService.

(** What ppk.ts uses of the JavaScript runtime and of ../../uuid. *)
Class Runtime : Type := {
  JSON_stringify : JsVal -> string;
  JSON_parse : string -> Result JsVal;
  (** [Buffer.from(value, encoding)] *)
  Buffer_from : JsVal -> Encoding -> Result Buffer;
  (** [uuid.createNano()] *)
  createNano : Entropy -> string * Entropy;
}.

(** [Date.now()] *)
Definition Date_now : M Z := fun w => (Ok (clock w), w).

Section Ppk.

Context {rt : Runtime}.
Context {Key : Type} {rsa : NodeRSA.Api Key}.

(** [getActiveMasterKey] (syncInfoUtils) and [getMasterPassword] (./utils)
    are missing: they are parameters, which read a sync info and the world
    and change nothing.  [getMasterPassword] takes its optional argument
    and returns a string, whose falsy value is the empty string. *)
Variable getActiveMasterKey : SyncInfo -> option loc.
Variable getMasterPassword : option bool -> World -> Result string.

(** *** Calls to the collaborators, with their trace *)

Definition service_encrypt (service : EncryptionService.t)
    (method : EncryptionMethod) (password plainText : string) : M string :=
  tell (CallServiceEncrypt method) ;;!
  withEntropy (EncryptionService.encrypt service method password plainText).

Definition service_decrypt (service : EncryptionService.t)
    (method : EncryptionMethod) (password cipherText : string) : M string :=
  tell (CallServiceDecrypt method) ;;!
  liftR (EncryptionService.decrypt service method password cipherText).

Definition keys_generateKeyPair (keys : Key) (bits exponent : Z) : M Key :=
  tell (CallGenerateKeyPair bits exponent) ;;!
  withEntropy (fun e => let '(k, e') := NodeRSA.generateKeyPair keys bits exponent e in (Ok k, e')).

Definition keys_encrypt (keys : Key) (data : string) (encoding : Encoding) : M string :=
  tell CallRsaEncrypt ;;!
  withEntropy (NodeRSA.encrypt keys data encoding).

Definition keys_decrypt (keys : Key) (buffer : Buffer) (encoding : Encoding) : M string :=
  tell CallRsaDecrypt ;;!
  liftR (NodeRSA.decrypt keys buffer encoding).

Definition uuid_createNano : M string :=
  withEntropy (fun e => let '(s, e') := createNano e in (Ok s, e')).

(** *** Objects passed by reference *)

(** A reference that the store does not hold plays [null]. *)
Definition readEntity (l : loc) : M MasterKeyEntity :=
  fun w =>
    match entities w !! l with
    | Some o => (Ok o, w)
    | None => (Throw (TypeError "Cannot read properties of null"), w)
    end.

Definition newEntity (o : MasterKeyEntity) : M loc :=
  fun w =>
    let l := fresh (dom (entities w)) in
    (Ok l, setEntities (<[l := o]> (entities w)) w).

(** [{ ...a, ...b }]: a new object, the fields of [b] over those of [a]. *)
Definition spread (a b : loc) : M loc :=
  let! fa := readEntity a in
  let! fb := readEntity b in
  newEntity (fb ∪ fa).

Definition readSyncInfo (l : loc) : M SyncInfo :=
  fun w =>
    match syncInfos w !! l with
    | Some o => (Ok o, w)
    | None => (Throw (TypeError "Cannot read properties of null"), w)
    end.

(** [info.ppk = value] *)
Definition assignPpk (l : loc) (value : PublicPrivateKeyPair) : M unit :=
  let! o := readSyncInfo l in
  fun w =>
    (Ok tt,
     setSyncInfos
       (<[l := {| ppk := Some value; masterKeys := masterKeys o;
                   activeMasterKeyId := activeMasterKeyId o |}]> (syncInfos w)) w).

(** Modelled from the spec: [saveLocalSyncInfo] (syncInfoUtils) is
    missing; it "instructs the caller's persistence layer to save
    [localInfo]": the state of the object at the call is appended to what
    was saved. *)
Definition saveLocalSyncInfo (localInfo : loc) : M unit :=
  let! o := readSyncInfo localInfo in
  tell CallSaveLocalSyncInfo ;;!
  fun w => (Ok tt, setSaved (savedLocalSyncInfo w ++ [o]) w).

(** *** ppk.ts *)

Definition encryptPrivateKey (encryptionService : EncryptionService.t)
    (password plainText : string) : M PrivateKey :=
  let! c := service_encrypt encryptionService SJCL4 password plainText in
  ret {| encryptionMethod := SJCL4; ciphertext := c |}.

Definition decryptPrivateKey (encryptionService : EncryptionService.t)
    (encryptedKey : PrivateKey) (password : string) : M string :=
  service_decrypt encryptionService (encryptionMethod encryptedKey) password
    (ciphertext encryptedKey).

Definition nodeRSAEncryptionScheme : string := "pkcs1_oaep".

Definition nodeRSAOptions : NodeRSA.Options :=
  {| NodeRSA.encryptionScheme := nodeRSAEncryptionScheme |}.

Definition generateKeyPair (encryptionService : EncryptionService.t)
    (password : string) : M PublicPrivateKeyPair :=
  let keys := NodeRSA.new in
  let keys := NodeRSA.setOptions keys nodeRSAOptions in
  let! keys := keys_generateKeyPair keys 2048 65537 in
  (* Sanity check *)
  if negb (NodeRSA.isPrivate keys) then throw (Error "No private key was generated") else
  if negb (NodeRSA.isPublic keys) then throw (Error "No public key was generated") else
  let! id_ := uuid_createNano in
  let! privatePem := liftR (NodeRSA.exportKey keys Pkcs1PrivatePem) in
  let! privateKey_ := encryptPrivateKey encryptionService password privatePem in
  let! publicKey_ := liftR (NodeRSA.exportKey keys Pkcs1PublicPem) in
  let! createdTime_ := Date_now in
  ret {| id := id_; privateKey := privateKey_; publicKey := publicKey_;
         createdTime := createdTime_ |}.

(** The function returns [localInfo.ppk], read back from the object that
    was just assigned. *)
Definition generateKeyPairAndSave (encryptionService : EncryptionService.t)
    (localInfo : loc) (password : string) : M PublicPrivateKeyPair :=
  let! generated := generateKeyPair encryptionService password in
  assignPpk localInfo generated ;;!
  saveLocalSyncInfo localInfo ;;!
  let! info := readSyncInfo localInfo in
  match ppk info with
  | Some stored => ret stored
  | None => throw (TypeError "localInfo.ppk is undefined")
  end.

(** A pure read of the world. *)
Definition readWorld {A} (f : World -> Result A) : M A := fun w => (f w, w).

Definition setPpkIfNotExist (service : EncryptionService.t)
    (localInfo remoteInfo : loc) : M unit :=
  let! local := readSyncInfo localInfo in
  let! hasPpk :=
    match ppk local with
    | Some _ => ret true
    | None => let! remote := readSyncInfo remoteInfo in ret (bool_decide (is_Some (ppk remote)))
    end in
  if hasPpk : bool then ret tt else

  let masterKey := getActiveMasterKey local in
  if negb (bool_decide (is_Some masterKey)) then ret tt else

  let! password := readWorld (getMasterPassword (Some false)) in
  if String.eqb password "" then ret tt else

  let! password' := readWorld (getMasterPassword None) in
  generateKeyPairAndSave service localInfo password' ;;!
  ret tt.

Definition loadPpk (service : EncryptionService.t) (ppk : PublicPrivateKeyPair)
    (password : string) : M Key :=
  let keys := NodeRSA.new in
  let keys := NodeRSA.setOptions keys nodeRSAOptions in
  let! keys := liftR (NodeRSA.importKey keys (publicKey ppk) Pkcs1PublicPem) in
  let! privatePem := decryptPrivateKey service (privateKey ppk) password in
  let! keys := liftR (NodeRSA.importKey keys privatePem Pkcs1PrivatePem) in
  ret keys.

(** The argument is [None] where the caller passes [undefined] or [null]. *)
Definition ppkPasswordIsValid (service : EncryptionService.t)
    (ppk : option PublicPrivateKeyPair) (password : string) : M bool :=
  match ppk with
  | None => throw (Error "PPK is undefined")
  | Some ppk =>
      tryCatch
        (loadPpk service ppk password ;;! ret true)
        (fun error => ret false)
  end.

Definition loadPublicKey (publicKey : PublicKey) : M Key :=
  let keys := NodeRSA.new in
  let keys := NodeRSA.setOptions keys nodeRSAOptions in
  let! keys := liftR (NodeRSA.importKey keys publicKey Pkcs1PublicPem) in
  ret keys.

Record Context : Type := {
  nodeRSA : Key;
  ppkId : string;
}.

(** [EncryptionCustomHandler] of EncryptionService.ts, as ppk.ts builds
    it. *)
Record EncryptionCustomHandler : Type := {
  context : Context;
  encrypt : Context -> string -> string -> M string;
  decrypt : Context -> string -> string -> M string;
}.

(** The object literal that [encrypt] serialises. *)
Definition envelope (ppkId scheme ciphertext : string) : JsVal :=
  JObj [("ppkId", JStr ppkId); ("scheme", JStr scheme); ("ciphertext", JStr ciphertext)].

(** [`Needs private key ${envelopeId} to decrypt, but using ${handlerId}`] *)
Definition keyMismatchMessage (envelopeId : JsVal) (handlerId : string) : Result string :=
  match ToString envelopeId with
  | Ok converted =>
      Ok ("Needs private key " +:+ converted +:+ " to decrypt, but using " +:+ handlerId)
  | Throw e => Throw e
  end.

Definition ppkEncryptionHandler (ppkId : string) (nodeRSA : Key) : EncryptionCustomHandler :=
  {| context := {| nodeRSA := nodeRSA; ppkId := ppkId |};
     encrypt := fun context hexaBytes _password =>
       let! encrypted := keys_encrypt (Ppk.nodeRSA context) hexaBytes Hex in
       ret (JSON_stringify (envelope (Ppk.ppkId context) nodeRSAEncryptionScheme encrypted));
     decrypt := fun context ciphertext _password =>
       let! parsed := liftR (JSON_parse ciphertext) in
       let! parsedPpkId := liftR (getProp parsed "ppkId") in
       if strictNotEqualString parsedPpkId (Ppk.ppkId context)
       then
         let! message := liftR (keyMismatchMessage parsedPpkId (Ppk.ppkId context)) in
         throw (Error message)
       else
         let! parsedCiphertext := liftR (getProp parsed "ciphertext") in
         let! buffer := liftR (Buffer_from parsedCiphertext Hex) in
         keys_decrypt (Ppk.nodeRSA context) buffer Utf8 |}.

(** *** Master key methods of the EncryptionService *)

Record EncryptOptions : Type := {
  encryptionHandler : option EncryptionCustomHandler;
}.

Definition handlerOf (options : option EncryptOptions) : option EncryptionCustomHandler :=
  match options with
  | Some o => encryptionHandler o
  | None => None
  end.

(** Reads of the typed fields of a master key.  A field that is absent or
    of another type is outside of the TypeScript type of the entity; the
    embedding throws there. *)
Definition stringField (fields : MasterKeyEntity) (name : string) : M string :=
  match fields !! name with
  | Some (FString s) => ret s
  | _ => throw (TypeError ("master key field is not a string: " +:+ name))
  end.

Definition methodField (fields : MasterKeyEntity) (name : string) : M EncryptionMethod :=
  match fields !! name with
  | Some (FMethod m) => ret m
  | _ => throw (TypeError ("master key field is not an encryption method: " +:+ name))
  end.

(** Modelled from the spec: [EncryptionService.decryptMasterKeyContent]
    is missing; its [options] "optionally carries a custom handler that
    overrides password-based behavior": with a handler the content goes
    through the handler's [decrypt], without one through the service's
    [decrypt] under the method the entity records. *)
Definition decryptMasterKeyContent (service : EncryptionService.t) (masterKey : loc)
    (password : string) (options : option EncryptOptions) : M string :=
  let! model := readEntity masterKey in
  match handlerOf options with
  | Some handler =>
      let! content := stringField model "content" in
      decrypt handler (context handler) content password
  | None =>
      let! method := methodField model "encryption_method" in
      let! content := stringField model "content" in
      service_decrypt service method password content
  end.

(** Modelled from the spec: [EncryptionService.encryptMasterKeyContent]
    is missing; it produces the encrypted-content fields of a master key (a
    new object), through the custom handler when [options] carries one,
    which is the method [Custom], and through the service's [encrypt]
    otherwise, a [null] method standing for the service's default one. *)
Definition encryptMasterKeyContent (service : EncryptionService.t)
    (encryptionMethod : option EncryptionMethod) (hexaBytes password : string)
    (options : option EncryptOptions) : M loc :=
  match handlerOf options with
  | Some handler =>
      let! content := encrypt handler (context handler) hexaBytes password in
      newEntity (<["encryption_method" := FMethod Custom]> {["content" := FString content]})
  | None =>
      let method := default (EncryptionService.defaultMasterKeyEncryptionMethod service)
                            encryptionMethod in
      let! content := service_encrypt service method password hexaBytes in
      newEntity (<["encryption_method" := FMethod method]> {["content" := FString content]})
  end.

(** Modelled from the spec: [EncryptionService.reencryptMasterKey] is
    missing; ppk.ts calls it with the master key, a password and two
    options.  Like the other re-encryption operations it decrypts with the
    first options, encrypts with the second and returns "a full replacement
    MasterKeyEntity (original fields merged with newly produced
    encrypted-content fields)". *)
Definition reencryptMasterKey (service : EncryptionService.t) (masterKey : loc)
    (password : string) (decryptOptions encryptOptions : option EncryptOptions) : M loc :=
  let! plainText := decryptMasterKeyContent service masterKey password decryptOptions in
  let! newContent := encryptMasterKeyContent service None plainText password encryptOptions in
  spread masterKey newContent.

(** *** ppk.ts, continued *)

(** Decrypt the content of a master key that was encrypted using a PPK *)
Definition ppkDecryptMasterKeyContent (service : EncryptionService.t) (masterKey : loc)
    (ppk : PublicPrivateKeyPair) (password : string) : M string :=
  let! nodeRSA := loadPpk service ppk password in
  let handler := ppkEncryptionHandler (id ppk) nodeRSA in
  decryptMasterKeyContent service masterKey "" (Some {| encryptionHandler := Some handler |}).

Definition reencryptFromPasswordToPublicKey (service : EncryptionService.t)
    (masterKey : loc) (decryptionPassword : string)
    (encryptionPublicKey : PublicPrivateKeyPair) : M loc :=
  let! keys := loadPublicKey (publicKey encryptionPublicKey) in
  let encryptionHandler_ := ppkEncryptionHandler (id encryptionPublicKey) keys in

  let! plainText := decryptMasterKeyContent service masterKey decryptionPassword None in
  let! newContent := encryptMasterKeyContent service (Some Custom) plainText ""
                       (Some {| encryptionHandler := Some encryptionHandler_ |}) in

  spread masterKey newContent.

Definition reencryptFromPublicKeyToPassword (service : EncryptionService.t)
    (masterKey : loc) (decryptionPpk : PublicPrivateKeyPair)
    (decryptionPassword encryptionPassword : string) : M loc :=
  let! keys := loadPpk service decryptionPpk decryptionPassword in
  let decryptionHandler := ppkEncryptionHandler (id decryptionPpk) keys in

  let! plainText := decryptMasterKeyContent service masterKey ""
                      (Some {| encryptionHandler := Some decryptionHandler |}) in
  let! newContent := encryptMasterKeyContent service None plainText encryptionPassword None in

  spread masterKey newContent.

Definition ppkReencryptMasterKey (service : EncryptionService.t) (masterKey : loc)
    (decryptionPpk : PublicPrivateKeyPair) (decryptionPassword : string)
    (encryptionPublicKey : PublicPrivateKeyPair) : M loc :=
  let! publicKeys := loadPublicKey (publicKey encryptionPublicKey) in
  let encryptionHandler_ := ppkEncryptionHandler (id encryptionPublicKey) publicKeys in
  let! fullKeys := loadPpk service decryptionPpk decryptionPassword in
  let decryptionHandler := ppkEncryptionHandler (id decryptionPpk) fullKeys in

  reencryptMasterKey service masterKey ""
    (Some {| encryptionHandler := Some decryptionHandler |})
    (Some {| encryptionHandler := Some encryptionHandler_ |}).

End Ppk.

Arguments Context Key : clear implicits.
Arguments EncryptionCustomHandler Key : clear implicits.
Arguments EncryptOptions Key : clear implicits.

(** ** Observations used to state the properties *)

(** The key object that [generateKeyPair] asks the provider for. *)
Definition requestedKeys {Key : Type} {rsa : NodeRSA.Api Key} (w : World) : Key * Entropy :=
  NodeRSA.generateKeyPair (NodeRSA.setOptions NodeRSA.new nodeRSAOptions) 2048 65537 (rng w).

(** The second world differs from the first at most by its entropy and its
    trace. *)
Definition sameStore (w w' : World) : Prop :=
  clock w' = clock w /\ settings w' = settings w /\ entities w' = entities w /\
  syncInfos w' = syncInfos w /\ savedLocalSyncInfo w' = savedLocalSyncInfo w.

(** ** What the proofs assume of the collaborators *)



Section Laws.

Context (rt : Runtime) {Key : Type} (rsa : NodeRSA.Api Key).

(** [JSON.parse] inverts [JSON.stringify] on envelopes. *)
Definition JSONRoundTrip : Prop :=
  forall ppkId scheme ciphertext : string,
    JSON_parse (JSON_stringify (envelope ppkId scheme ciphertext))
    = Ok (envelope ppkId scheme ciphertext).

(** The key object [full] holds the private key that undoes what [public]
    encrypts: [public] encrypts any string to hexadecimal text, and
    [Buffer.from] of that text decrypts with [full] to the string. *)
Definition decryptsFor (full public : Key) : Prop :=
  forall (data : string) (e : Entropy),
    exists (c : string) (e' : Entropy),
      NodeRSA.encrypt public data Hex e = (Ok c, e') /\
      exists buffer : Buffer,
        Buffer_from (JStr c) Hex = Ok buffer /\
        NodeRSA.decrypt full buffer Utf8 = Ok data.

(** A key object into which a private key was imported holds both halves
    of one pair. *)
Definition PrivateImportRoundTrip : Prop :=
  forall (keys keys' : Key) (pem : string),
    NodeRSA.importKey keys pem Pkcs1PrivatePem = Ok keys' -> decryptsFor keys' keys'.

(** What [exportKey] produced, [importKey] accepts. *)
Definition ExportedKeysImport : Prop :=
  forall (keys target : Key) (format : KeyFormat) (pem : string),
    NodeRSA.exportKey keys format = Ok pem ->
    exists keys', NodeRSA.importKey target pem format = Ok keys'.


(** Under one method, the service decrypts with a password what it
    encrypted with that password. *)
Definition PasswordRoundTrip (service : EncryptionService.t) (method : EncryptionMethod) : Prop :=
  forall (password plainText c : string) (e e' : Entropy),
    EncryptionService.encrypt service method password plainText e = (Ok c, e') ->
    EncryptionService.decrypt service method password c = Ok plainText.

(** The service encrypts any text under the method. *)
Definition PasswordEncrypts (service : EncryptionService.t) (method : EncryptionMethod) : Prop :=
  forall (password plainText : string) (e : Entropy),
    exists (c : string) (e' : Entropy),
      EncryptionService.encrypt service method password plainText e = (Ok c, e').

End Laws.

(** The sync info after [info.ppk = pair]. *)
Definition withPpk (info : SyncInfo) (pair : PublicPrivateKeyPair) : SyncInfo :=
  {| ppk := Some pair; masterKeys := masterKeys info;
     activeMasterKeyId := activeMasterKeyId info |}.

(** The world after [localInfo.ppk = pair; saveLocalSyncInfo(localInfo)]. *)
Definition assignedAndSaved (localInfo : loc) (local : SyncInfo)
    (pair : PublicPrivateKeyPair) (w : World) : World :=
  setSaved (savedLocalSyncInfo w ++ [withPpk local pair])
    (logCall CallSaveLocalSyncInfo
       (setSyncInfos (<[localInfo := withPpk local pair]> (syncInfos w)) w)).

(** [merged] has the fields of [produced], and those of [original] that
    [produced] does not have. *)
Definition mergedOver (original produced merged : MasterKeyEntity) : Prop :=
  forall name : string,
    merged !! name
    = match produced !! name with
      | Some v => Some v
      | None => original !! name
      end.

(** In the world [w'], [replacement] is a new object that merges the
    object [newContent] of the world [w2] over the fields that [masterKey]
    has in [w], and every object of [w], [masterKey] among them, is as it
    was. *)
Definition replacedBy (w : World) (masterKey : loc) (w2 : World) (newContent : loc)
    (w' : World) (replacement : loc) : Prop :=
  exists original produced merged : MasterKeyEntity,
    entities w !! masterKey = Some original /\
    entities w2 !! newContent = Some produced /\
    entities w' !! replacement = Some merged /\
    mergedOver original produced merged /\
    entities w !! replacement = None /\
    (forall (l : loc) (o : MasterKeyEntity),
       entities w !! l = Some o -> entities w' !! l = Some o).

(** The encrypted-content fields that [encryptMasterKeyContent] produces. *)
Definition newContentFields (method : EncryptionMethod) (content : string) : MasterKeyEntity :=
  <["encryption_method" := FMethod method]> {["content" := FString content]}.

(** The handler changes nothing in the world but entropy and trace. *)
Definition handlerKeepsStore {Key : Type} (handler : EncryptionCustomHandler Key) : Prop :=
  forall (context : Context Key) (text password : string) (w : World),
    sameStore w (encrypt handler context text password w).2 /\
    sameStore w (decrypt handler context text password w).2.

Definition optionsKeepStore {Key : Type} (options : option (EncryptOptions Key)) : Prop :=
  forall handler, handlerOf options = Some handler -> handlerKeepsStore handler.

(** The stored private key of [pair] decrypts under [password] to a key
    that imports, into the key object [full]; the public key imports into
    [public]; and [full] undoes what [public] encrypts. *)
Definition KeyPairWithPassword (rt : Runtime) {Key : Type} (rsa : NodeRSA.Api Key)
    (service : EncryptionService.t) (pair : PublicPrivateKeyPair) (password : string)
    (full public : Key) : Prop :=
  NodeRSA.importKey (NodeRSA.setOptions NodeRSA.new nodeRSAOptions) (publicKey pair)
    Pkcs1PublicPem = Ok public /\
  (exists pem : string,
     EncryptionService.decrypt service (encryptionMethod (privateKey pair)) password
       (ciphertext (privateKey pair)) = Ok pem /\
     NodeRSA.importKey public pem Pkcs1PrivatePem = Ok full) /\
  decryptsFor rt rsa full public.

(** ** Reference collaborators

    Small executable stand-ins for the collaborators, under which the
    assumptions above hold: a JSON codec for flat objects of strings, the
    hexadecimal codec of [Buffer], and ciphers that tag the text with the
    key. *)
Module Reference.

(** *** JSON text of flat objects of strings *)

Definition quoteChar : ascii := Ascii false true false false false true false false.
Definition backslash : ascii := Ascii false false true true true false true false.

Fixpoint escape (s : string) : string :=
  match s with
  | EmptyString => EmptyString
  | String c rest =>
      if Ascii.eqb c quoteChar || Ascii.eqb c backslash
      then String backslash (String c (escape rest))
      else String c (escape rest)
  end.

Definition quote (s : string) : string :=
  String quoteChar (escape s +:+ String quoteChar EmptyString).

Definition stringifyMember (member : string * JsVal) : string :=
  quote member.1 +:+ ":" +:+
  match member.2 with
  | JStr s => quote s
  | _ => "null"
  end.

Definition stringify (value : JsVal) : string :=
  match value with
  | JObj fields => "{" +:+ joinWith "," (map stringifyMember fields) +:+ "}"
  | JStr s => quote s
  | _ => "null"
  end.

(** Reads a string literal after its opening quote: the string and the
    text that follows the closing quote. *)
Fixpoint parseStringBody (text : string) : option (string * string) :=
  match text with
  | EmptyString => None
  | String c rest =>
      if Ascii.eqb c quoteChar then Some (EmptyString, rest)
      else if Ascii.eqb c backslash then
        match rest with
        | String d rest' =>
            if Ascii.eqb d quoteChar || Ascii.eqb d backslash
            then prod_map (String d) (fun r => r) <$> parseStringBody rest'
            else None
        | EmptyString => None
        end
      else prod_map (String c) (fun r => r) <$> parseStringBody rest
  end.

Definition parseString (text : string) : option (string * string) :=
  match text with
  | String c rest => if Ascii.eqb c quoteChar then parseStringBody rest else None
  | EmptyString => None
  end.

Definition expect (c : ascii) (text : string) : option string :=
  match text with
  | String d rest => if Ascii.eqb c d then Some rest else None
  | EmptyString => None
  end.

(** Members after the opening brace, up to the closing one. *)
Fixpoint parseMembers (fuel : nat) (text : string) : option (list (string * JsVal)) :=
  match fuel with
  | O => None
  | S fuel =>
      '(key, text) ← parseString text;
      text ← expect ":" text;
      '(value, text) ← parseString text;
      match text with
      | String "}" EmptyString => Some [(key, JStr value)]
      | String "," text => cons (key, JStr value) <$> parseMembers fuel text
      | _ => None
      end
  end.

Definition parse (text : string) : Result JsVal :=
  match text with
  | String "{" (String "}" EmptyString) => Ok (JObj [])
  | String "{" members =>
      match parseMembers (String.length text) members with
      | Some fields => Ok (JObj fields)
      | None => Throw (SyntaxError "Unexpected token in JSON")
      end
  | _ => Throw (SyntaxError "Unexpected token in JSON")
  end.

(** Members whose values are all strings. *)
Definition stringMembers (fields : list (string * JsVal)) : Prop :=
  Forall (fun member => exists s : string, member.2 = JStr s) fields.

(** *** Hexadecimal text of buffers *)

Definition hexDigit (n : N) : ascii :=
  ascii_of_N (if (n <? 10)%N then 48 + n else 87 + n).

Definition hexValue (a : ascii) : option N :=
  let n := N_of_ascii a in
  if ((48 <=? n) && (n <=? 57))%N then Some (n - 48)%N
  else if ((97 <=? n) && (n <=? 102))%N then Some (n - 87)%N
  else if ((65 <=? n) && (n <=? 70))%N then Some (n - 55)%N
  else None.

Fixpoint hexEncode (bytes : Buffer) : string :=
  match bytes with
  | [] => EmptyString
  | b :: rest =>
      let n := Byte.to_N b in
      String (hexDigit (n / 16)) (String (hexDigit (n mod 16)) (hexEncode rest))
  end.

(** [Buffer.from(text, 'hex')] stops at the first pair that is not
    hexadecimal. *)
Fixpoint hexDecode (text : string) : Buffer :=
  match text with
  | String a (String b rest) =>
      match hexValue a, hexValue b with
      | Some h, Some l =>
          match Byte.of_N (16 * h + l) with
          | Some x => x :: hexDecode rest
          | None => []
          end
      | _, _ => []
      end
  | _ => []
  end.

Definition bufferFrom (value : JsVal) (encoding : Encoding) : Result Buffer :=
  match value with
  | JStr s =>
      match encoding with
      | Hex => Ok (hexDecode s)
      | Utf8 => Ok (list_byte_of_string s)
      end
  | _ => Throw (TypeError "The first argument must be of type string")
  end.

#[export] Instance runtime : Runtime := {|
  JSON_stringify := stringify;
  JSON_parse := parse;
  Buffer_from := bufferFrom;
  createNano := fun e => (String (ascii_of_N (97 + e mod 26)) "-nano-id", N.succ e);
|}.

(** *** Keys that tag the text *)

Fixpoint stripPrefix (prefix text : string) : option string :=
  match prefix with
  | EmptyString => Some text
  | String c prefix' =>
      match text with
      | String d text' => if Ascii.eqb c d then stripPrefix prefix' text' else None
      | EmptyString => None
      end
  end.

Record Key : Type := {
  scheme : string;
  publicPart : option string;
  privatePart : option string;
}.

Definition importKey (keys : Key) (pem : string) (format : KeyFormat) : Result Key :=
  match format with
  | Pkcs1PublicPem =>
      match stripPrefix "PUBLIC " pem with
      | Some material =>
          Ok {| scheme := scheme keys; publicPart := Some material; privatePart := None |}
      | None => Throw (Error "Unsupported key format")
      end
  | Pkcs1PrivatePem =>
      match stripPrefix "PRIVATE " pem with
      | Some material =>
          Ok {| scheme := scheme keys; publicPart := Some material;
                privatePart := Some material |}
      | None => Throw (Error "Unsupported key format")
      end
  end.

Definition exportKey (keys : Key) (format : KeyFormat) : Result string :=
  match format with
  | Pkcs1PublicPem =>
      match publicPart keys with
      | Some material => Ok ("PUBLIC " +:+ material)
      | None => Throw (Error "This is not public key")
      end
  | Pkcs1PrivatePem =>
      match privatePart keys with
      | Some material => Ok ("PRIVATE " +:+ material)
      | None => Throw (Error "This is not private key")
      end
  end.

Definition rsaEncrypt (keys : Key) (data : string) (encoding : Encoding) (e : Entropy)
    : Result string * Entropy :=
  match publicPart keys with
  | Some material =>
      let bytes := list_byte_of_string (material +:+ data) in
      (Ok match encoding with
          | Hex => hexEncode bytes
          | Utf8 => string_of_list_byte bytes
          end, N.succ e)
  | None => (Throw (Error "This is not public key"), e)
  end.

Definition rsaDecrypt (keys : Key) (buffer : Buffer) (encoding : Encoding) : Result string :=
  match privatePart keys with
  | Some material =>
      match stripPrefix material (string_of_list_byte buffer) with
      | Some data => Ok data
      | None => Throw (Error "Error during decryption (probably incorrect key)")
      end
  | None => Throw (Error "This is not private key")
  end.

#[export] Instance rsa : NodeRSA.Api Key := {|
  NodeRSA.new := {| scheme := "pkcs1_oaep"; publicPart := None; privatePart := None |};
  NodeRSA.setOptions := fun keys options =>
    {| scheme := NodeRSA.encryptionScheme options; publicPart := publicPart keys;
       privatePart := privatePart keys |};
  NodeRSA.generateKeyPair := fun keys bits exponent e =>
    let material := String (ascii_of_N (65 + e mod 26)) "-material" in
    ({| scheme := scheme keys; publicPart := Some material; privatePart := Some material |},
     N.succ e);
  NodeRSA.isPrivate := fun keys => bool_decide (is_Some (privatePart keys));
  NodeRSA.isPublic := fun keys => bool_decide (is_Some (publicPart keys));
  NodeRSA.exportKey := exportKey;
  NodeRSA.importKey := importKey;
  NodeRSA.encrypt := rsaEncrypt;
  NodeRSA.decrypt := rsaDecrypt;
|}.

(** A provider that yields no key at all. *)
Definition brokenRsa : NodeRSA.Api Key := {|
  NodeRSA.new := {| scheme := "pkcs1_oaep"; publicPart := None; privatePart := None |};
  NodeRSA.setOptions := fun keys options => keys;
  NodeRSA.generateKeyPair := fun keys bits exponent e => (keys, e);
  NodeRSA.isPrivate := fun keys => bool_decide (is_Some (privatePart keys));
  NodeRSA.isPublic := fun keys => bool_decide (is_Some (publicPart keys));
  NodeRSA.exportKey := exportKey;
  NodeRSA.importKey := importKey;
  NodeRSA.encrypt := rsaEncrypt;
  NodeRSA.decrypt := rsaDecrypt;
|}.

(** *** A password cipher that tags the text *)

Definition service : EncryptionService.t := {|
  EncryptionService.encrypt := fun method password plainText e =>
    (Ok (password +:+ "|" +:+ plainText), N.succ e);
  EncryptionService.decrypt := fun method password cipherText =>
    match stripPrefix (password +:+ "|") cipherText with
    | Some plainText => Ok plainText
    | None => Throw (Error "Invalid password")
    end;
  EncryptionService.defaultMasterKeyEncryptionMethod := SJCL4;
|}.

(** *** Worlds and helpers *)

Definition getActiveMasterKey (info : SyncInfo) : option loc :=
  head (masterKeys info).

(** The master password is the setting [encryption.masterPassword]; the
    helper throws when asked to and there is none. *)
Definition getMasterPassword (throwIfNotSet : option bool) (w : World) : Result string :=
  let password := default "" (settings w !! "encryption.masterPassword") in
  if String.eqb password "" && default true throwIfNotSet
  then Throw (Error "Master password is not set")
  else Ok password.

Definition emptyWorld : World :=
  mkWorld 0%N 1700000000000%Z ∅ ∅ ∅ [] [].

(** *** Examples *)

(** The key pair that [generateKeyPair] returns in [emptyWorld] for the
    password [abc123], and the key object that [loadPpk] makes of it. *)
Definition pairA : PublicPrivateKeyPair :=
  {| id := "b-nano-id";
     publicKey := "PUBLIC A-material";
     privateKey := {| encryptionMethod := SJCL4;
                      ciphertext := "abc123|PRIVATE A-material" |};
     createdTime := 1700000000000 |}.

Definition keysA : Key :=
  {| scheme := "pkcs1_oaep"; publicPart := Some "A-material";
     privatePart := Some "A-material" |}.

Definition publicKeysA : Key :=
  {| scheme := "pkcs1_oaep"; publicPart := Some "A-material"; privatePart := None |}.

(** Another key pair. *)
Definition pairB : PublicPrivateKeyPair :=
  {| id := "e-nano-id";
     publicKey := "PUBLIC D-material";
     privateKey := {| encryptionMethod := SJCL4;
                      ciphertext := "abc123|PRIVATE D-material" |};
     createdTime := 1700000000001 |}.

Definition keysB : Key :=
  {| scheme := "pkcs1_oaep"; publicPart := Some "D-material";
     privatePart := Some "D-material" |}.

(** A world with one master key, whose content [c0ffee] is encrypted
    under the password [pw]. *)
Definition masterKeyWorld : World :=
  setEntities
    {[ 1%positive :=
         ({[ "id" := FString "mk1";
             "created_time" := FNumber 1600000000000;
             "encryption_method" := FMethod SJCL4;
             "content" := FString "pw|c0ffee" ]} : MasterKeyEntity) ]}
    emptyWorld.

Definition localInfoA : SyncInfo :=
  {| ppk := None; masterKeys := [1%positive]; activeMasterKeyId := "mk1" |}.

Definition remoteInfoA : SyncInfo :=
  {| ppk := None; masterKeys := [1%positive]; activeMasterKeyId := "mk1" |}.

(** A world with a local and a remote sync info without key pair, an
    active master key and the master password [abc123]. *)
Definition syncWorld : World :=
  mkWorld 0%N 1700000000000%Z {[ "encryption.masterPassword" := "abc123" ]} ∅
    {[ 1%positive := localInfoA; 2%positive := remoteInfoA ]} [] [].

(** The same, where the remote sync info has a key pair. *)
Definition syncWorldWithRemotePpk : World :=
  setSyncInfos
    {[ 1%positive := localInfoA; 2%positive := withPpk remoteInfoA pairB ]} syncWorld.

(** What [keysA] encrypts the text [48656c6c6f] to, and an envelope of it
    without scheme. *)
Definition cipherA : string := "412d6d6174657269616c34383635366336633666".

Definition envelopeWithoutScheme : JsVal :=
  JObj [("ppkId", JStr "b-nano-id"); ("ciphertext", JStr cipherA)].

End Reference.

(** ** Further assumptions and examples *)

(** The two exports of a generated key object import into two key objects,
    of which the one with the private key undoes what the other encrypts. *)
Definition GeneratedPairMatches (rt : Runtime) {Key : Type} (rsa : NodeRSA.Api Key) : Prop :=
  forall (keys0 target public full : Key) (bits exponent : Z) (e : Entropy)
         (publicPem privatePem : string),
    let keys := (NodeRSA.generateKeyPair keys0 bits exponent e).1 in
    NodeRSA.exportKey keys Pkcs1PublicPem = Ok publicPem ->
    NodeRSA.exportKey keys Pkcs1PrivatePem = Ok privatePem ->
    NodeRSA.importKey target publicPem Pkcs1PublicPem = Ok public ->
    NodeRSA.importKey public privatePem Pkcs1PrivatePem = Ok full ->
    decryptsFor rt rsa full public.

(** The second world has the clock, settings and master keys of the first,
    and its sync infos but for the one at [localInfo]. *)
Definition sameButLocalInfo (localInfo : loc) (w w' : World) : Prop :=
  clock w' = clock w /\ settings w' = settings w /\ entities w' = entities w /\
  forall l : loc, l <> localInfo -> syncInfos w' !! l = syncInfos w !! l.

Module Examples.

Import Reference.

Definition publicKeysB : Key :=
  {| scheme := "pkcs1_oaep"; publicPart := Some "D-material"; privatePart := None |}.

(** [pairA] with a public key that is no key. *)
Definition corruptPairA : PublicPrivateKeyPair :=
  {| id := id pairA; publicKey := "garbage"; privateKey := privateKey pairA;
     createdTime := createdTime pairA |}.

(** A world whose local sync info has a key pair, and a reference to no
    object. *)
Definition syncWorldWithLocalPpk : World :=
  setSyncInfos {[ 1%positive := withPpk localInfoA pairB ]} syncWorld.

Definition nowhere : loc := 9%positive.

(** The master key of [masterKeyWorld], re-encrypted for [pairA]. *)
Definition publicKeyWorld : World :=
  (reencryptFromPasswordToPublicKey service 1%positive "pw" pairA masterKeyWorld).2.

End Examples.

(** ** A JSON codec for nested values

    An executable stand-in for [JSON.stringify] and [JSON.parse] on text
    without white space: objects, arrays, strings, [null], booleans and
    whole numbers, so that envelopes that no handler wrote can be parsed.
    Text that it does not read is refused with a [SyntaxError]. *)
Module Json.

Import Reference.

(** A member whose value is [undefined] is left out of an object; in an
    array [undefined] is written as [null]. *)
Fixpoint stringify (value : JsVal) : string :=
  match value with
  | JUndefined | JNull => "null"
  | JBool true => "true"
  | JBool false => "false"
  | JNum repr => repr
  | JStr s => quote s
  | JArr items => "[" +:+ joinWith "," (map stringify items) +:+ "]"
  | JObj fields =>
      "{" +:+ joinWith ","
                (omap (fun member =>
                         match member with
                         | (_, JUndefined) => None
                         | (key, item) => Some (quote key +:+ ":" +:+ stringify item)
                         end) fields)
          +:+ "}"
  end.

Definition isDigit (c : ascii) : bool :=
  let n := N_of_ascii c in ((48 <=? n) && (n <=? 57))%N.

(** The longest prefix of digits, and the rest. *)
Fixpoint spanDigits (text : string) : string * string :=
  match text with
  | String c rest =>
      if isDigit c
      then let '(digits, rest') := spanDigits rest in (String c digits, rest')
      else (EmptyString, text)
  | EmptyString => (EmptyString, EmptyString)
  end.

(** Whole numbers that [JSON.parse] reads and [String] writes back alike:
    an optional minus sign, no leading zero, at most fifteen digits, and no
    fraction or exponent after them. *)
Definition parseNumber (text : string) : option (JsVal * string) :=
  let '(negative, body) := match text with
                           | String "-" rest => (true, rest)
                           | _ => (false, text)
                           end in
  let '(digits, rest) := spanDigits body in
  let plain := match rest with
               | String "." _ | String "e" _ | String "E" _ => false
               | _ => true
               end in
  match digits with
  | EmptyString => None
  | String "0" EmptyString => if negative || negb plain then None else Some (JNum "0", rest)
  | String "0" _ => None
  | _ =>
      if (String.length digits <=? 15)%nat && plain
      then Some (JNum (if negative then String "-" digits else digits), rest)
      else None
  end.

Definition parseLiteral (text : string) : option (JsVal * string) :=
  match stripPrefix "null" text with
  | Some rest => Some (JNull, rest)
  | None =>
      match stripPrefix "true" text with
      | Some rest => Some (JBool true, rest)
      | None =>
          match stripPrefix "false" text with
          | Some rest => Some (JBool false, rest)
          | None => parseNumber text
          end
      end
  end.

(** A key that comes again keeps its place and takes the later value. *)
Fixpoint setField (key : string) (item : JsVal) (fields : list (string * JsVal))
    : list (string * JsVal) :=
  match fields with
  | [] => [(key, item)]
  | (k, v) :: rest =>
      if String.eqb k key then (k, item) :: rest else (k, v) :: setField key item rest
  end.

(** A value at the head of the text, and the text that follows it. *)
Fixpoint parseValue (fuel : nat) (text : string) : option (JsVal * string) :=
  match fuel with
  | O => None
  | S fuel =>
      match text with
      | EmptyString => None
      | String c rest =>
          if Ascii.eqb c quoteChar then
            prod_map JStr (fun r => r) <$> parseStringBody rest
          else if Ascii.eqb c "{" then
            match rest with
            | String "}" rest' => Some (JObj [], rest')
            | _ => prod_map JObj (fun r => r) <$> parseMembers fuel [] rest
            end
          else if Ascii.eqb c "[" then
            match rest with
            | String "]" rest' => Some (JArr [], rest')
            | _ => prod_map JArr (fun r => r) <$> parseItems fuel rest
            end
          else parseLiteral text
      end
  end
with parseMembers (fuel : nat) (read : list (string * JsVal)) (text : string)
    : option (list (string * JsVal) * string) :=
  match fuel with
  | O => None
  | S fuel =>
      '(key, text) ← parseString text;
      text ← expect ":" text;
      '(item, text) ← parseValue fuel text;
      match text with
      | String "}" rest => Some (setField key item read, rest)
      | String "," rest => parseMembers fuel (setField key item read) rest
      | _ => None
      end
  end
with parseItems (fuel : nat) (text : string) : option (list JsVal * string) :=
  match fuel with
  | O => None
  | S fuel =>
      '(item, text) ← parseValue fuel text;
      match text with
      | String "]" rest => Some ([item], rest)
      | String "," rest => prod_map (cons item) (fun r => r) <$> parseItems fuel rest
      | _ => None
      end
  end.

Definition parse (text : string) : Result JsVal :=
  match parseValue (S (String.length text)) text with
  | Some (value, EmptyString) => Ok value
  | _ => Throw (SyntaxError "Unexpected token in JSON")
  end.

Definition runtime : Runtime := {|
  JSON_stringify := stringify;
  JSON_parse := parse;
  Buffer_from := bufferFrom;
  createNano := createNano (Runtime := Reference.runtime);
|}.

(** An envelope whose [ppkId] is an object with an own [toString]
    property. *)
Definition envelopeWithObjectId : JsVal :=
  JObj [("ppkId", JObj [("toString", JNull)]); ("scheme", JStr "pkcs1_oaep");
        ("ciphertext", JStr cipherA)].

End Json.

(** * Properties *)

(** Unfolds the monad on the goal and the hypotheses. *)
Ltac unfoldM :=
  simpl in *;
  unfold keys_encrypt, keys_decrypt, keys_generateKeyPair, service_encrypt, service_decrypt,
    uuid_createNano in *;
  unfold bind, ret, throw, liftR, withEntropy, tell, tryCatch, readWorld, Date_now in *;
  simpl in *.

(** Computes the fields of an updated world. *)
Ltac simplWorld :=
  unfold setRng, setEntities, setSyncInfos, setSaved, logCall in *; simpl in *.

(** Splits the pair that a collaborator returned. *)
Ltac caseCall :=
  let go call :=
    lazymatch call with
    | context [match _ with _ => _ end] => fail
    | _ => idtac
    end;
    lazymatch type of call with
    | prod _ _ =>
        let r := fresh "r" in
        let e := fresh "e" in
        let E := fresh "E" in
        destruct call as [r e] eqn:E
    end in
  match goal with
  | |- context [match ?call with _ => _ end] => go call
  | H : context [match ?call with _ => _ end] |- _ => go call
  end.

Section Handler.

Context {rt : Runtime} {Key : Type} {rsa : NodeRSA.Api Key}.

Implicit Types (keys : Key) (w : World).

Lemma strictNotEqualString_false (value : JsVal) (s : string) :
  strictNotEqualString value s = false <-> value = JStr s.
Proof.
  destruct value; simpl; try (split; [discriminate | congruence]).
  rewrite negb_false_iff, String.eqb_eq. split; congruence.
Qed.

Lemma strictNotEqualString_true (value : JsVal) (s : string) :
  strictNotEqualString value s = true <-> value <> JStr s.
Proof.
  rewrite <- strictNotEqualString_false.
  destruct (strictNotEqualString value s); split; congruence.
Qed.

(** What [encrypt] returns is the serialised envelope of what the key
    object returned. *)
Lemma handler_encrypt_inv (ppkId : string) keys (hexaBytes password env : string) w w' :
  let handler := ppkEncryptionHandler ppkId keys in
  encrypt handler (context handler) hexaBytes password w = (Ok env, w') ->
  exists (c : string) (e' : Entropy),
    NodeRSA.encrypt keys hexaBytes Hex (rng w) = (Ok c, e') /\
    env = JSON_stringify (envelope ppkId nodeRSAEncryptionScheme c) /\
    w' = setRng e' (logCall CallRsaEncrypt w).
Proof.
  intros handler. unfold handler. unfoldM. caseCall.
  destruct r as [c | err]; intros [= <- <-]. exists c, e. repeat split.
Qed.

Lemma handler_encrypt_ok (ppkId : string) keys (hexaBytes password c : string) w e' :
  let handler := ppkEncryptionHandler ppkId keys in
  NodeRSA.encrypt keys hexaBytes Hex (rng w) = (Ok c, e') ->
  encrypt handler (context handler) hexaBytes password w
  = (Ok (JSON_stringify (envelope ppkId nodeRSAEncryptionScheme c)),
     setRng e' (logCall CallRsaEncrypt w)).
Proof.
  intros handler Hc. unfold handler. unfoldM. rewrite Hc. reflexivity.
Qed.

(** The two branches of [decrypt] on a parsed envelope. *)
Lemma handler_decrypt_mismatch (ppkId : string) keys (text password : string)
    (parsed parsedPpkId : JsVal) w :
  let handler := ppkEncryptionHandler ppkId keys in
  JSON_parse text = Ok parsed ->
  getProp parsed "ppkId" = Ok parsedPpkId ->
  parsedPpkId <> JStr ppkId ->
  decrypt handler (context handler) text password w
  = (match keyMismatchMessage parsedPpkId ppkId with
     | Ok message => Throw (Error message)
     | Throw e => Throw e
     end, w).
Proof.
  intros handler Hparse Hid Hne. unfold handler. unfoldM.
  rewrite Hparse, Hid.
  apply strictNotEqualString_true in Hne. rewrite Hne.
  destruct (keyMismatchMessage parsedPpkId ppkId); reflexivity.
Qed.

Lemma handler_decrypt_match (ppkId : string) keys (text password : string)
    (parsed : JsVal) w :
  let handler := ppkEncryptionHandler ppkId keys in
  JSON_parse text = Ok parsed ->
  getProp parsed "ppkId" = Ok (JStr ppkId) ->
  decrypt handler (context handler) text password w
  = (let! parsedCiphertext := liftR (getProp parsed "ciphertext") in
     let! buffer := liftR (Buffer_from parsedCiphertext Hex) in
     keys_decrypt keys buffer Utf8) w.
Proof.
  intros handler Hparse Hid. unfold handler. unfoldM.
  rewrite Hparse, Hid.
  assert (strictNotEqualString (JStr ppkId) ppkId = false) as ->
    by (apply strictNotEqualString_false; reflexivity).
  reflexivity.
Qed.

(** C1: a handler built for one key pair refuses the envelope of a
    handler built for a pair with another [id]: decrypting it throws an
    [Error] whose message names the envelope's id and the handler's own,
    and the world is left as it was, so that the key object was not asked
    to decrypt (the trace has no new [CallRsaDecrypt]). *)
Theorem decrypt_rejects_other_key_pair
    (Hjson : JSONRoundTrip rt)
    (k1 k2 : PublicPrivateKeyPair) (keys1 keys2 : Key)
    (hexaBytes password1 password2 env : string) (w1 w1' w2 : World) :
  let handler1 := ppkEncryptionHandler (id k1) keys1 in
  let handler2 := ppkEncryptionHandler (id k2) keys2 in
  id k1 <> id k2 ->
  encrypt handler1 (context handler1) hexaBytes password1 w1 = (Ok env, w1') ->
  decrypt handler2 (context handler2) env password2 w2
  = (Throw (Error ("Needs private key " +:+ id k1 +:+ " to decrypt, but using " +:+ id k2)),
     w2)
  /\ trace (decrypt handler2 (context handler2) env password2 w2).2 = trace w2.
Proof.
  intros handler1 handler2 Hne Henc.
  apply handler_encrypt_inv in Henc as (c & e' & _ & -> & _).
  assert (decrypt handler2 (context handler2)
            (JSON_stringify (envelope (id k1) nodeRSAEncryptionScheme c)) password2 w2
          = (Throw (Error ("Needs private key " +:+ id k1 +:+ " to decrypt, but using "
                           +:+ id k2)), w2)) as Hdec.
  { unfold handler2.
    rewrite (handler_decrypt_mismatch _ _ _ _
               (envelope (id k1) nodeRSAEncryptionScheme c) (JStr (id k1)));
      [reflexivity | apply Hjson | reflexivity | congruence]. }
  rewrite Hdec. split; reflexivity.
Qed.


(** C9: on an envelope that parses, [decrypt] looks at the [ppkId] of
    the parsed value and at nothing else before it decrypts.  When that
    [ppkId] is not the handler's id it throws and the key object is not
    asked to decrypt, and what it throws is the key mismatch error naming
    the two ids whenever the [ppkId] converts to a string for the message;
    otherwise it hands the [ciphertext] to the key object.  Two envelopes
    that agree on [ppkId] and [ciphertext] are treated alike, whatever
    their [scheme] is or whether they have one. *)
Theorem decrypt_inspects_only_ppkId
    (ppkId : string) (keys : Key) (text password : string)
    (parsed parsedPpkId : JsVal) (w : World) :
  let handler := ppkEncryptionHandler ppkId keys in
  JSON_parse text = Ok parsed ->
  getProp parsed "ppkId" = Ok parsedPpkId ->
  (parsedPpkId <> JStr ppkId ->
     (exists err : Exn, decrypt handler (context handler) text password w = (Throw err, w))
     /\ forall converted : string,
          ToString parsedPpkId = Ok converted ->
          decrypt handler (context handler) text password w
          = (Throw (Error ("Needs private key " +:+ converted +:+ " to decrypt, but using "
                           +:+ ppkId)), w))
  /\ (parsedPpkId = JStr ppkId ->
      forall (parsedCiphertext : JsVal) (buffer : Buffer),
        getProp parsed "ciphertext" = Ok parsedCiphertext ->
        Buffer_from parsedCiphertext Hex = Ok buffer ->
        decrypt handler (context handler) text password w
        = (NodeRSA.decrypt keys buffer Utf8, logCall CallRsaDecrypt w))
  /\ (forall (text' : string) (parsed' : JsVal),
        JSON_parse text' = Ok parsed' ->
        getProp parsed' "ppkId" = getProp parsed "ppkId" ->
        getProp parsed' "ciphertext" = getProp parsed "ciphertext" ->
        decrypt handler (context handler) text' password w
        = decrypt handler (context handler) text password w).
Proof.
  intros handler Hparse Hid. split; [| split].
  - intros Hne. unfold handler.
    rewrite (handler_decrypt_mismatch _ _ _ _ parsed parsedPpkId) by assumption.
    unfold keyMismatchMessage. split.
    + destruct (ToString parsedPpkId); eauto.
    + intros converted ->. reflexivity.
  - intros -> c buffer Hc Hbuf.
    unfold handler. rewrite (handler_decrypt_match _ _ _ _ parsed) by assumption.
    unfoldM. rewrite Hc, Hbuf. reflexivity.
  - intros text' parsed' Hparse' Hid' Hc'.
    unfold handler. unfoldM.
    rewrite Hparse, Hparse', Hid', Hc'. reflexivity.
Qed.

End Handler.

Section KeyPairs.

Context {rt : Runtime} {Key : Type} {rsa : NodeRSA.Api Key}.

Implicit Types (service : EncryptionService.t) (pair : PublicPrivateKeyPair) (w : World).

(** [loadPpk], step by step. *)
Lemma loadPpk_eq service pair (password : string) w :
  loadPpk service pair password w
  = match NodeRSA.importKey (NodeRSA.setOptions NodeRSA.new nodeRSAOptions)
            (publicKey pair) Pkcs1PublicPem with
    | Throw err => (Throw err, w)
    | Ok publicOnly =>
        let w' := logCall (CallServiceDecrypt (encryptionMethod (privateKey pair))) w in
        match EncryptionService.decrypt service (encryptionMethod (privateKey pair))
                password (ciphertext (privateKey pair)) with
        | Throw err => (Throw err, w')
        | Ok pem =>
            match NodeRSA.importKey publicOnly pem Pkcs1PrivatePem with
            | Throw err => (Throw err, w')
            | Ok keys => (Ok keys, w')
            end
        end
    end.
Proof.
  unfold loadPpk, decryptPrivateKey. unfoldM.
  destruct (NodeRSA.importKey _ (publicKey pair) _) as [publicOnly | err]; [| reflexivity].
  destruct (EncryptionService.decrypt _ _ _ _) as [pem | err]; [| reflexivity].
  destruct (NodeRSA.importKey publicOnly pem _); reflexivity.
Qed.

Lemma loadPpk_inv service pair (password : string) w keys w' :
  loadPpk service pair password w = (Ok keys, w') ->
  exists (publicOnly : Key) (pem : string),
    NodeRSA.importKey publicOnly pem Pkcs1PrivatePem = Ok keys.
Proof.
  rewrite loadPpk_eq.
  destruct (NodeRSA.importKey _ (publicKey pair) _) as [publicOnly | err]; [| discriminate].
  simpl. destruct (EncryptionService.decrypt _ _ _ _) as [pem | err]; [| discriminate].
  destruct (NodeRSA.importKey publicOnly pem _) as [keys' | err] eqn:E; [| discriminate].
  intros [= <- _]. eauto.
Qed.

(** [ppkPasswordIsValid] on an actual key pair: whether [loadPpk]
    returned. *)
Lemma ppkPasswordIsValid_eq service pair (password : string) w :
  ppkPasswordIsValid service (Some pair) password w
  = (Ok (isOk (loadPpk service pair password w).1), (loadPpk service pair password w).2).
Proof.
  unfold ppkPasswordIsValid. unfoldM.
  destruct (loadPpk service pair password w) as [[keys | err] w']; reflexivity.
Qed.

(** [generateKeyPair], step by step. *)
Lemma generateKeyPair_eq service (password : string) w :
  generateKeyPair service password w
  = let keys := (requestedKeys w).1 in
    let w1 := setRng (requestedKeys w).2 (logCall (CallGenerateKeyPair 2048 65537) w) in
    if negb (NodeRSA.isPrivate keys) then (Throw (Error "No private key was generated"), w1)
    else if negb (NodeRSA.isPublic keys) then (Throw (Error "No public key was generated"), w1)
    else
      let nano := createNano (requestedKeys w).2 in
      let w2 := setRng nano.2 w1 in
      match NodeRSA.exportKey keys Pkcs1PrivatePem with
      | Throw err => (Throw err, w2)
      | Ok pem =>
          let encrypted := EncryptionService.encrypt service SJCL4 password pem nano.2 in
          let w3 := setRng encrypted.2 (logCall (CallServiceEncrypt SJCL4) w2) in
          match encrypted.1 with
          | Throw err => (Throw err, w3)
          | Ok c =>
              match NodeRSA.exportKey keys Pkcs1PublicPem with
              | Throw err => (Throw err, w3)
              | Ok pem' =>
                  (Ok {| id := nano.1;
                         privateKey := {| encryptionMethod := SJCL4; ciphertext := c |};
                         publicKey := pem';
                         createdTime := clock w |}, w3)
              end
          end
      end.
Proof.
  unfold generateKeyPair, encryptPrivateKey, requestedKeys. unfoldM.
  destruct (NodeRSA.generateKeyPair _ _ _ _) as [keys e1]. simpl.
  destruct (NodeRSA.isPrivate keys); [| reflexivity]. simpl.
  destruct (NodeRSA.isPublic keys); [| reflexivity]. simpl.
  destruct (createNano e1) as [nano e2]. simpl.
  destruct (NodeRSA.exportKey keys Pkcs1PrivatePem) as [pem | err]; [| reflexivity].
  destruct (EncryptionService.encrypt _ _ _ _ _) as [[c | err] e3]; [| reflexivity]. simpl.
  destruct (NodeRSA.exportKey keys Pkcs1PublicPem); reflexivity.
Qed.

(** What a returned key pair is made of. *)
Lemma generateKeyPair_inv service (password : string) w pair w' :
  generateKeyPair service password w = (Ok pair, w') ->
  exists (pem c : string) (e e' : Entropy),
    NodeRSA.exportKey (requestedKeys w).1 Pkcs1PrivatePem = Ok pem /\
    EncryptionService.encrypt service SJCL4 password pem e = (Ok c, e') /\
    privateKey pair = {| encryptionMethod := SJCL4; ciphertext := c |} /\
    NodeRSA.exportKey (requestedKeys w).1 Pkcs1PublicPem = Ok (publicKey pair) /\
    createdTime pair = clock w.
Proof.
  rewrite generateKeyPair_eq. cbv zeta.
  destruct (negb (NodeRSA.isPrivate _)); [discriminate |].
  destruct (negb (NodeRSA.isPublic _)); [discriminate |].
  destruct (NodeRSA.exportKey _ Pkcs1PrivatePem) as [pem | err]; [| discriminate].
  destruct (EncryptionService.encrypt _ _ _ _ _) as [[c | err] e3] eqn:E; [| discriminate].
  simpl. destruct (NodeRSA.exportKey _ Pkcs1PublicPem) as [pem' | err]; [| discriminate].
  intros [= <- _]. exists pem, c. eauto 10.
Qed.

(** C2: with the key object that [loadPpk] returns for a key pair, the
    handler of the pair encrypts any string of hexadecimal bytes (any
    string at all) to an envelope, and decrypts that envelope to the
    string. *)
Theorem handler_round_trip
    (Hjson : JSONRoundTrip rt) (Hrsa : PrivateImportRoundTrip rt rsa)
    service pair (password : string) w (keys : Key) w' :
  loadPpk service pair password w = (Ok keys, w') ->
  let handler := ppkEncryptionHandler (id pair) keys in
  forall (hexaBytes password1 : string) (w1 : World),
    exists (env : string) (w2 : World),
      encrypt handler (context handler) hexaBytes password1 w1 = (Ok env, w2) /\
      forall (password2 : string) (w3 : World),
        decrypt handler (context handler) env password2 w3
        = (Ok hexaBytes, logCall CallRsaDecrypt w3).
Proof.
  intros Hload handler hexaBytes password1 w1.
  apply loadPpk_inv in Hload as (publicOnly & pem & Himport).
  destruct (Hrsa _ _ _ Himport hexaBytes (rng w1)) as (c & e' & Hc & buffer & Hbuf & Hdec).
  eexists _, _. split.
  { apply handler_encrypt_ok. exact Hc. }
  intros password2 w3. unfold handler.
  rewrite (handler_decrypt_match _ _ _ _ (envelope (id pair) nodeRSAEncryptionScheme c))
    by (try apply Hjson; reflexivity).
  unfoldM. rewrite Hbuf, Hdec. reflexivity.
Qed.

(** C3: the password that a key pair was generated with is valid for it,
    and [ppkPasswordIsValid] returns [false], and throws nothing, when
    loading the key pair throws, as it does when the service cannot
    decrypt the stored private key. *)
Theorem ppkPasswordIsValid_generated
    service (Hservice : PasswordRoundTrip service SJCL4) (Himport : ExportedKeysImport rsa) :
  (forall (password : string) w pair w1,
     generateKeyPair service password w = (Ok pair, w1) ->
     forall w2, (ppkPasswordIsValid service (Some pair) password w2).1 = Ok true)
  /\ (forall pair (password : string) w (err : Exn),
        EncryptionService.decrypt service (encryptionMethod (privateKey pair)) password
          (ciphertext (privateKey pair)) = Throw err ->
        (ppkPasswordIsValid service (Some pair) password w).1 = Ok false)
  /\ (forall pair (password : string) w (err : Exn) w',
        loadPpk service pair password w = (Throw err, w') ->
        ppkPasswordIsValid service (Some pair) password w = (Ok false, w')).
Proof.
  split; [| split].
  - intros password w pair w1 Hgen w2.
    apply generateKeyPair_inv in Hgen as (pem & c & e & e' & Hpem & Hc & Hprivate & Hpublic & _).
    rewrite ppkPasswordIsValid_eq, loadPpk_eq. simpl.
    destruct (Himport _ (NodeRSA.setOptions NodeRSA.new nodeRSAOptions) _ _ Hpublic)
      as [publicOnly ->].
    rewrite Hprivate. simpl. rewrite (Hservice _ _ _ _ _ Hc).
    destruct (Himport _ publicOnly _ _ Hpem) as [keys ->]. reflexivity.
  - intros pair password w err Hdecrypt.
    rewrite ppkPasswordIsValid_eq, loadPpk_eq. simpl.
    destruct (NodeRSA.importKey _ (publicKey pair) _); [| reflexivity].
    rewrite Hdecrypt. reflexivity.
  - intros pair password w err w' Hload.
    rewrite ppkPasswordIsValid_eq, Hload. reflexivity.
Qed.

(** C10: for a key pair that is [undefined] or [null],
    [ppkPasswordIsValid] throws the error [PPK is undefined]; for an actual
    key pair it never throws, and it returns [false] exactly when loading
    that key pair throws. *)
Theorem ppkPasswordIsValid_undefined service (password : string) w :
  ppkPasswordIsValid service None password w = (Throw (Error "PPK is undefined"), w)
  /\ forall pair,
       (exists valid : bool, (ppkPasswordIsValid service (Some pair) password w).1 = Ok valid)
       /\ ((ppkPasswordIsValid service (Some pair) password w).1 = Ok false
           <-> exists err : Exn, (loadPpk service pair password w).1 = Throw err).
Proof.
  split; [reflexivity |].
  intros pair. rewrite ppkPasswordIsValid_eq. simpl. split; [eauto |].
  destruct (loadPpk service pair password w).1 as [keys | err]; simpl.
  - split; [discriminate | intros [err [=]]].
  - split; eauto.
Qed.

(** C4: [generateKeyPair] asks the provider for a key of 2048 bits with
    the public exponent 65537, and for nothing else; it throws when the key
    object that comes back is not private, or not public; otherwise, where
    the exports and the service's encryption return, it returns the key
    pair whose private key is the export of the private half encrypted by
    the service under the password, with the method [SJCL4] that was
    used, and whose public key is the export of the public half.  Whatever
    the outcome it changes nothing in the world but the entropy it drew
    and the trace of its calls. *)
Theorem generateKeyPair_contract service (password : string) w :
  let keys := (requestedKeys w).1 in
  let outcome := generateKeyPair service password w in
  (exists rest : list Call,
     trace outcome.2 = (trace w ++ CallGenerateKeyPair 2048 65537 :: rest)%list /\
     (rest = [] \/ rest = [CallServiceEncrypt SJCL4]))
  /\ (NodeRSA.isPrivate keys = false ->
      outcome.1 = Throw (Error "No private key was generated"))
  /\ (NodeRSA.isPrivate keys = true -> NodeRSA.isPublic keys = false ->
      outcome.1 = Throw (Error "No public key was generated"))
  /\ (NodeRSA.isPrivate keys = true -> NodeRSA.isPublic keys = true ->
      forall (privatePem publicPem c : string) (e' : Entropy),
        NodeRSA.exportKey keys Pkcs1PrivatePem = Ok privatePem ->
        EncryptionService.encrypt service SJCL4 password privatePem
          (createNano (requestedKeys w).2).2 = (Ok c, e') ->
        NodeRSA.exportKey keys Pkcs1PublicPem = Ok publicPem ->
        outcome.1
        = Ok {| id := (createNano (requestedKeys w).2).1;
                privateKey := {| encryptionMethod := SJCL4; ciphertext := c |};
                publicKey := publicPem;
                createdTime := clock w |})
  /\ sameStore w outcome.2.
Proof.
  intros keys outcome. subst outcome. rewrite generateKeyPair_eq. cbv zeta. fold keys.
  destruct (NodeRSA.isPrivate keys) eqn:Hprivate;
    [destruct (NodeRSA.isPublic keys) eqn:Hpublic;
     [destruct (NodeRSA.exportKey keys Pkcs1PrivatePem) as [pem | err] eqn:Hpem;
      [destruct (EncryptionService.encrypt service SJCL4 password pem _)
         as [[c | err] e3] eqn:Hc;
       [destruct (NodeRSA.exportKey keys Pkcs1PublicPem) as [pem' | err] eqn:Hpem' | ]
      | ] | ] | ];
    simpl;
    (split;
     [eexists; split; [simpl; rewrite <- ?app_assoc; reflexivity | auto]
     | split; [congruence | split; [congruence | split; [| repeat split]]]]).
  all: intros Hp Hq privatePem publicPem c' e' H1 H2 H3; congruence.
Qed.

End KeyPairs.

Section Monad.

Context {A B : Type}.

Lemma bind_ok (m : M A) (k : A -> M B) (w w1 : World) (a : A) :
  m w = (Ok a, w1) -> bind m k w = k a w1.
Proof. intros H. unfold bind. rewrite H. reflexivity. Qed.

Lemma bind_throw (m : M A) (k : A -> M B) (w w1 : World) (err : Exn) :
  m w = (Throw err, w1) -> bind m k w = (Throw err, w1).
Proof. intros H. unfold bind. rewrite H. reflexivity. Qed.

Lemma bind_inv (m : M A) (k : A -> M B) (w w' : World) (b : B) :
  bind m k w = (Ok b, w') ->
  exists (a : A) (w1 : World), m w = (Ok a, w1) /\ k a w1 = (Ok b, w').
Proof.
  unfold bind. destruct (m w) as [[a | err] w1]; [eauto | discriminate].
Qed.

End Monad.

Section SameStore.

Lemma sameStore_refl (w : World) : sameStore w w.
Proof. repeat split. Qed.

Lemma sameStore_trans (w1 w2 w3 : World) :
  sameStore w1 w2 -> sameStore w2 w3 -> sameStore w1 w3.
Proof.
  unfold sameStore. intros (? & ? & ? & ? & ?) (? & ? & ? & ? & ?).
  repeat split; congruence.
Qed.

End SameStore.

Section Saving.

Context {rt : Runtime} {Key : Type} {rsa : NodeRSA.Api Key}.
Variable getActiveMasterKey : SyncInfo -> option loc.
Variable getMasterPassword : option bool -> World -> Result string.

Implicit Types (service : EncryptionService.t) (w : World).

Lemma generateKeyPair_sameStore service (password : string) w :
  sameStore w (generateKeyPair service password w).2.
Proof.
  rewrite generateKeyPair_eq. cbv zeta.
  repeat match goal with
         | |- context [if ?b then _ else _] => destruct b
         | |- context [match ?r with Ok _ => _ | Throw _ => _ end] => destruct r
         end; repeat split.
Qed.

Lemma generateKeyPairAndSave_ok service (localInfo : loc) (local : SyncInfo)
    (password : string) w (pair : PublicPrivateKeyPair) w1 :
  syncInfos w !! localInfo = Some local ->
  generateKeyPair service password w = (Ok pair, w1) ->
  generateKeyPairAndSave service localInfo password w
  = (Ok pair, assignedAndSaved localInfo local pair w1).
Proof.
  intros Hlocal Hgen.
  pose proof (generateKeyPair_sameStore service password w) as (_ & _ & _ & Hinfos & _).
  rewrite Hgen in Hinfos. simpl in Hinfos. rewrite <- Hinfos in Hlocal.
  unfold generateKeyPairAndSave. rewrite (bind_ok _ _ _ _ _ Hgen).
  unfold assignPpk, saveLocalSyncInfo, readSyncInfo. unfoldM.
  rewrite Hlocal. simplWorld. repeat (rewrite lookup_insert_eq; simpl). reflexivity.
Qed.

Lemma generateKeyPairAndSave_throw service (localInfo : loc) (password : string) w
    (err : Exn) w1 :
  generateKeyPair service password w = (Throw err, w1) ->
  generateKeyPairAndSave service localInfo password w = (Throw err, w1).
Proof. intros Hgen. unfold generateKeyPairAndSave. apply bind_throw, Hgen. Qed.

(** [setPpkIfNotExist], step by step. *)
Lemma setPpkIfNotExist_eq service (localInfo remoteInfo : loc) (local remote : SyncInfo) w :
  syncInfos w !! localInfo = Some local ->
  syncInfos w !! remoteInfo = Some remote ->
  setPpkIfNotExist getActiveMasterKey getMasterPassword service localInfo remoteInfo w
  = if bool_decide (is_Some (ppk local)) || bool_decide (is_Some (ppk remote))
    then (Ok tt, w)
    else if negb (bool_decide (is_Some (getActiveMasterKey local))) then (Ok tt, w)
    else
      match getMasterPassword (Some false) w with
      | Throw err => (Throw err, w)
      | Ok password =>
          if String.eqb password "" then (Ok tt, w)
          else
            match getMasterPassword None w with
            | Throw err => (Throw err, w)
            | Ok password' =>
                match generateKeyPairAndSave service localInfo password' w with
                | (Ok _, w') => (Ok tt, w')
                | (Throw err, w') => (Throw err, w')
                end
            end
      end.
Proof.
  intros Hlocal Hremote. unfold setPpkIfNotExist, readSyncInfo. unfoldM.
  rewrite Hlocal. destruct (ppk local) as [pair |]; simpl; [reflexivity |].
  rewrite Hremote. simpl.
  destruct (bool_decide (is_Some (ppk remote))); [reflexivity |]. simpl.
  destruct (negb (bool_decide (is_Some (getActiveMasterKey local)))); [reflexivity |].
  destruct (getMasterPassword (Some false) w) as [password | err]; [| reflexivity].
  destruct (String.eqb password ""); [reflexivity |].
  destruct (getMasterPassword None w) as [password' | err]; [| reflexivity].
  destruct (generateKeyPairAndSave service localInfo password' w) as [[pair | err] w'];
    reflexivity.
Qed.

(** C8: [setPpkIfNotExist] returns without changing the world, so with
    [localInfo] as it was and nothing saved, when [localInfo] or
    [remoteInfo] has a key pair, when there is no active master key, or
    when the master password is empty; in every other case it generates a
    key pair under the master password, and where that returns the pair,
    the pair is assigned to [localInfo.ppk] and [localInfo] is saved with
    it, while an error of the generation is thrown on. *)
Theorem setPpkIfNotExist_contract service (localInfo remoteInfo : loc)
    (local remote : SyncInfo) w :
  syncInfos w !! localInfo = Some local ->
  syncInfos w !! remoteInfo = Some remote ->
  let outcome := setPpkIfNotExist getActiveMasterKey getMasterPassword service
                   localInfo remoteInfo w in
  ((is_Some (ppk local) \/ is_Some (ppk remote) \/ getActiveMasterKey local = None \/
    getMasterPassword (Some false) w = Ok "") ->
   outcome = (Ok tt, w))
  /\ (ppk local = None -> ppk remote = None -> is_Some (getActiveMasterKey local) ->
      forall password password' : string,
        getMasterPassword (Some false) w = Ok password -> password <> "" ->
        getMasterPassword None w = Ok password' ->
        (forall (pair : PublicPrivateKeyPair) w1,
           generateKeyPair service password' w = (Ok pair, w1) ->
           outcome = (Ok tt, assignedAndSaved localInfo local pair w1) /\
           syncInfos outcome.2 !! localInfo = Some (withPpk local pair) /\
           savedLocalSyncInfo outcome.2 = (savedLocalSyncInfo w ++ [withPpk local pair])%list)
        /\ (forall (err : Exn) w1,
              generateKeyPair service password' w = (Throw err, w1) ->
              outcome = (Throw err, w1))).
Proof.
  intros Hlocal Hremote outcome. subst outcome.
  rewrite (setPpkIfNotExist_eq _ _ _ _ _ _ Hlocal Hremote).
  split.
  - intros Hnoop.
    destruct (ppk local) as [pair |]; simpl; [reflexivity |].
    destruct (ppk remote) as [pair |]; simpl; [reflexivity |].
    destruct (getActiveMasterKey local) as [masterKey |]; simpl; [| reflexivity].
    destruct Hnoop as [[? [=]] | [[? [=]] | [[=] | Hpassword]]].
    rewrite Hpassword. reflexivity.
  - intros Hppk Hppk' Hactive password password' Hpassword Hne Hpassword'.
    rewrite Hppk, Hppk'. destruct Hactive as [masterKey ->]. simpl.
    rewrite Hpassword. apply String.eqb_neq in Hne. rewrite Hne, Hpassword'.
    split.
    + intros pair w1 Hgen.
      rewrite (generateKeyPairAndSave_ok _ _ _ _ _ _ _ Hlocal Hgen).
      pose proof (generateKeyPair_sameStore service password' w) as (_ & _ & _ & _ & Hsaved).
      rewrite Hgen in Hsaved. simpl in Hsaved.
      simplWorld. rewrite lookup_insert_eq, Hsaved. repeat split.
    + intros err w1 Hgen.
      rewrite (generateKeyPairAndSave_throw _ _ _ _ _ _ Hgen). reflexivity.
Qed.

End Saving.

Section MasterKeys.

Context {rt : Runtime} {Key : Type} {rsa : NodeRSA.Api Key}.

Implicit Types (service : EncryptionService.t) (w : World) (masterKey : loc).
Implicit Types (handler : EncryptionCustomHandler Key).
Implicit Types (options : option (EncryptOptions Key)).

(** *** The new content fields *)

Lemma newContentFields_content (method : EncryptionMethod) (content : string)
    (original : MasterKeyEntity) :
  (newContentFields method content ∪ original) !! "content" = Some (FString content).
Proof.
  apply lookup_union_Some_l. unfold newContentFields.
  rewrite lookup_insert_ne by discriminate. apply lookup_singleton_eq.
Qed.

Lemma newContentFields_method (method : EncryptionMethod) (content : string)
    (original : MasterKeyEntity) :
  (newContentFields method content ∪ original) !! "encryption_method"
  = Some (FMethod method).
Proof. apply lookup_union_Some_l. apply lookup_insert_eq. Qed.

Lemma mergedOver_union (original produced : MasterKeyEntity) :
  mergedOver original produced (produced ∪ original).
Proof.
  intros name. rewrite lookup_union.
  destruct (produced !! name), (original !! name); reflexivity.
Qed.

(** *** Stores *)

Lemma ppkEncryptionHandler_keepsStore (ppkId : string) (keys : Key) :
  handlerKeepsStore (ppkEncryptionHandler ppkId keys).
Proof.
  intros context text password w. split; unfoldM.
  - destruct (NodeRSA.encrypt _ _ _ _) as [[c | err] e]; repeat split.
  - destruct (JSON_parse text) as [parsed | err]; [| repeat split].
    destruct (getProp parsed "ppkId") as [parsedPpkId | err]; [| repeat split].
    destruct (strictNotEqualString _ _).
    { destruct (keyMismatchMessage parsedPpkId _); repeat split. }
    destruct (getProp parsed "ciphertext") as [c | err]; [| repeat split].
    destruct (Buffer_from c Hex) as [buffer | err]; [| repeat split].
    destruct (NodeRSA.decrypt _ _ _); repeat split.
Qed.

Lemma ppkOptions_keepStore (ppkId : string) (keys : Key) :
  optionsKeepStore (Some {| encryptionHandler := Some (ppkEncryptionHandler ppkId keys) |}).
Proof. intros handler [= <-]. apply ppkEncryptionHandler_keepsStore. Qed.

Lemma noOptions_keepStore : optionsKeepStore (Key := Key) None.
Proof. intros handler [=]. Qed.

Lemma loadPpk_sameStore service (pair : PublicPrivateKeyPair) (password : string) w :
  sameStore w (loadPpk service pair password w).2.
Proof.
  rewrite loadPpk_eq.
  destruct (NodeRSA.importKey _ (publicKey pair) _) as [publicOnly | err]; [| repeat split].
  simpl. destruct (EncryptionService.decrypt _ _ _ _) as [pem | err]; [| repeat split].
  destruct (NodeRSA.importKey publicOnly pem _); repeat split.
Qed.

Lemma loadPublicKey_eq (publicKey : PublicKey) w :
  loadPublicKey publicKey w
  = (NodeRSA.importKey (NodeRSA.setOptions NodeRSA.new nodeRSAOptions) publicKey
       Pkcs1PublicPem, w).
Proof.
  unfold loadPublicKey. unfoldM. destruct (NodeRSA.importKey _ _ _); reflexivity.
Qed.

Lemma readEntity_inv (l : loc) w (o : MasterKeyEntity) w' :
  readEntity l w = (Ok o, w') -> entities w !! l = Some o /\ w' = w.
Proof.
  unfold readEntity. destruct (entities w !! l); intros [= <- <-]; eauto.
Qed.

Lemma readEntity_ok (l : loc) w (o : MasterKeyEntity) :
  entities w !! l = Some o -> readEntity l w = (Ok o, w).
Proof. intros H. unfold readEntity. rewrite H. reflexivity. Qed.

Lemma fresh_entity w : entities w !! fresh (dom (entities w)) = None.
Proof. apply not_elem_of_dom, is_fresh. Qed.

(** *** The master key methods *)

Lemma decryptMasterKeyContent_inv service masterKey (password : string) options w
    (plainText : string) w' :
  optionsKeepStore options ->
  decryptMasterKeyContent service masterKey password options w = (Ok plainText, w') ->
  sameStore w w' /\ is_Some (entities w !! masterKey).
Proof.
  intros Hkeeps. unfold decryptMasterKeyContent.
  intros (model & w1 & [Hmodel ->]%readEntity_inv & Hrest)%bind_inv.
  split; [| eauto].
  destruct (handlerOf options) as [handler |] eqn:Hhandler.
  - apply bind_inv in Hrest as (content & w2 & Hcontent & Hdecrypt).
    assert (w2 = w) as ->.
    { unfold stringField in Hcontent. unfoldM.
      destruct (model !! "content") as [[] |]; congruence. }
    pose proof (Hkeeps handler Hhandler (context handler) content password w) as [_ Hstore].
    rewrite Hdecrypt in Hstore. exact Hstore.
  - apply bind_inv in Hrest as (method & w2 & Hmethod & Hrest).
    apply bind_inv in Hrest as (content & w3 & Hcontent & Hdecrypt).
    unfold methodField, stringField in *. unfoldM.
    destruct (model !! "encryption_method") as [[] |]; try discriminate.
    destruct (model !! "content") as [[] |]; try discriminate.
    simplify_eq.
    destruct (EncryptionService.decrypt _ _ _ _); simplify_eq; repeat split.
Qed.

Lemma decryptMasterKeyContent_password service masterKey (password : string) w
    (model : MasterKeyEntity) (method : EncryptionMethod) (content : string) :
  entities w !! masterKey = Some model ->
  model !! "encryption_method" = Some (FMethod method) ->
  model !! "content" = Some (FString content) ->
  decryptMasterKeyContent (Key := Key) service masterKey password None w
  = (EncryptionService.decrypt service method password content,
     logCall (CallServiceDecrypt method) w).
Proof.
  intros Hmodel Hmethod Hcontent. unfold decryptMasterKeyContent.
  rewrite (bind_ok _ _ _ _ _ (readEntity_ok _ _ _ Hmodel)). simpl.
  unfold methodField, stringField. rewrite Hmethod, Hcontent. unfoldM.
  destruct (EncryptionService.decrypt _ _ _ _); reflexivity.
Qed.

Lemma decryptMasterKeyContent_password_inv service masterKey (password : string) w
    (plainText : string) :
  (decryptMasterKeyContent (Key := Key) service masterKey password None w).1 = Ok plainText ->
  exists (model : MasterKeyEntity) (method : EncryptionMethod) (content : string),
    entities w !! masterKey = Some model /\
    model !! "encryption_method" = Some (FMethod method) /\
    model !! "content" = Some (FString content) /\
    EncryptionService.decrypt service method password content = Ok plainText.
Proof.
  unfold decryptMasterKeyContent, readEntity, methodField, stringField. unfoldM.
  intros H. repeat case_match; simplify_eq/=. eauto 10.
Qed.

Lemma decryptMasterKeyContent_handler service masterKey (password : string) w handler
    (model : MasterKeyEntity) (content : string) :
  entities w !! masterKey = Some model ->
  model !! "content" = Some (FString content) ->
  decryptMasterKeyContent service masterKey password
    (Some {| encryptionHandler := Some handler |}) w
  = decrypt handler (context handler) content password w.
Proof.
  intros Hmodel Hcontent. unfold decryptMasterKeyContent.
  rewrite (bind_ok _ _ _ _ _ (readEntity_ok _ _ _ Hmodel)). simpl.
  unfold stringField. rewrite Hcontent. unfoldM.
  destruct (decrypt _ _ _ _ _) as [[] ?]; reflexivity.
Qed.

(** The world after a new object was allocated. *)
Lemma encryptMasterKeyContent_inv service (encryptionMethod : option EncryptionMethod)
    (hexaBytes password : string) options w (newContent : loc) w' :
  optionsKeepStore options ->
  encryptMasterKeyContent service encryptionMethod hexaBytes password options w
  = (Ok newContent, w') ->
  exists (w1 : World) (method : EncryptionMethod) (content : string),
    sameStore w w1 /\
    newContent = fresh (dom (entities w1)) /\
    w' = setEntities (<[newContent := newContentFields method content]> (entities w1)) w1.
Proof.
  intros Hkeeps. unfold encryptMasterKeyContent.
  destruct (handlerOf options) as [handler |] eqn:Hhandler.
  - intros (content & w1 & Hencrypt & Hnew)%bind_inv.
    pose proof (Hkeeps handler Hhandler (context handler) hexaBytes password w) as [Hstore _].
    rewrite Hencrypt in Hstore. injection Hnew as <- <-.
    exists w1, Custom, content. repeat split; apply Hstore.
  - intros (content & w1 & Hencrypt & Hnew)%bind_inv.
    injection Hnew as <- <-. eexists w1, _, content. split; [| split; reflexivity].
    unfoldM. destruct (EncryptionService.encrypt _ _ _ _ _) as [[c | err] e].
    + injection Hencrypt as <- <-. repeat split.
    + discriminate.
Qed.

Lemma encryptMasterKeyContent_handler service (encryptionMethod : option EncryptionMethod)
    (hexaBytes password : string) handler w (content : string) w1 :
  encrypt handler (context handler) hexaBytes password w = (Ok content, w1) ->
  encryptMasterKeyContent service encryptionMethod hexaBytes password
    (Some {| encryptionHandler := Some handler |}) w
  = (Ok (fresh (dom (entities w1))),
     setEntities (<[fresh (dom (entities w1)) := newContentFields Custom content]>
                    (entities w1)) w1).
Proof.
  intros Hencrypt. unfold encryptMasterKeyContent. simpl.
  rewrite (bind_ok _ _ _ _ _ Hencrypt). reflexivity.
Qed.

Lemma encryptMasterKeyContent_password service (encryptionMethod : option EncryptionMethod)
    (hexaBytes password : string) w (content : string) (e' : Entropy) :
  let method := default (EncryptionService.defaultMasterKeyEncryptionMethod service)
                  encryptionMethod in
  EncryptionService.encrypt service method password hexaBytes (rng w) = (Ok content, e') ->
  let w1 := setRng e' (logCall (CallServiceEncrypt method) w) in
  encryptMasterKeyContent (Key := Key) service encryptionMethod hexaBytes password None w
  = (Ok (fresh (dom (entities w1))),
     setEntities (<[fresh (dom (entities w1)) := newContentFields method content]>
                    (entities w1)) w1).
Proof.
  intros method Hencrypt w1. unfold encryptMasterKeyContent. unfoldM.
  fold method. rewrite Hencrypt. reflexivity.
Qed.

Lemma spread_ok (a b : loc) w (fa fb : MasterKeyEntity) :
  entities w !! a = Some fa ->
  entities w !! b = Some fb ->
  spread a b w
  = (Ok (fresh (dom (entities w))),
     setEntities (<[fresh (dom (entities w)) := fb ∪ fa]> (entities w)) w).
Proof.
  intros Ha Hb. unfold spread.
  rewrite (bind_ok _ _ _ _ _ (readEntity_ok _ _ _ Ha)).
  rewrite (bind_ok _ _ _ _ _ (readEntity_ok _ _ _ Hb)). reflexivity.
Qed.

Lemma spread_inv (a b : loc) w (l : loc) w' :
  spread a b w = (Ok l, w') ->
  exists fa fb : MasterKeyEntity,
    entities w !! a = Some fa /\ entities w !! b = Some fb /\
    l = fresh (dom (entities w)) /\
    w' = setEntities (<[l := fb ∪ fa]> (entities w)) w.
Proof.
  unfold spread.
  intros (fa & w1 & [Ha ->]%readEntity_inv & Hrest)%bind_inv.
  apply bind_inv in Hrest as (fb & w2 & [Hb ->]%readEntity_inv & Hnew).
  injection Hnew as <- <-. eauto 10.
Qed.

End MasterKeys.

Section Reencryption.

Context {rt : Runtime} {Key : Type} {rsa : NodeRSA.Api Key}.

Implicit Types (service : EncryptionService.t) (w : World) (masterKey : loc).
Implicit Types (pair : PublicPrivateKeyPair).
Implicit Types (options : option (EncryptOptions Key)).

Lemma replacedBy_sameStore w0 w masterKey w2 (newContent : loc) w' (replacement : loc) :
  sameStore w0 w -> replacedBy w masterKey w2 newContent w' replacement ->
  replacedBy w0 masterKey w2 newContent w' replacement.
Proof.
  intros (_ & _ & Hentities & _). unfold replacedBy. rewrite Hentities. trivial.
Qed.

(** Decrypting, encrypting and merging: the tail of every re-encryption
    operation. *)
Lemma merge_inv service masterKey (password1 password2 : string)
    (method : option EncryptionMethod) (decryptOptions encryptOptions : option (EncryptOptions Key))
    w (replacement : loc) w' :
  optionsKeepStore decryptOptions ->
  optionsKeepStore encryptOptions ->
  (let! plainText := decryptMasterKeyContent service masterKey password1 decryptOptions in
   let! newContent := encryptMasterKeyContent service method plainText password2
                        encryptOptions in
   spread masterKey newContent) w = (Ok replacement, w') ->
  exists (plainText : string) (w1 : World) (newContent : loc) (w2 : World),
    decryptMasterKeyContent service masterKey password1 decryptOptions w = (Ok plainText, w1) /\
    encryptMasterKeyContent service method plainText password2 encryptOptions w1
    = (Ok newContent, w2) /\
    replacedBy w masterKey w2 newContent w' replacement.
Proof.
  intros Hdecrypt Hencrypt.
  intros (plainText & w1 & Hplain & Hrest)%bind_inv.
  apply bind_inv in Hrest as (newContent & w2 & Hnew & Hspread).
  exists plainText, w1, newContent, w2. split; [exact Hplain |]. split; [exact Hnew |].
  apply decryptMasterKeyContent_inv in Hplain as [Hstore1 [original Horiginal]];
    [| assumption].
  apply encryptMasterKeyContent_inv in Hnew
    as (w1' & method' & content & Hstore2 & HnewContent & ->); [| assumption].
  pose proof (sameStore_trans _ _ _ Hstore1 Hstore2) as (_ & _ & Hentities & _).
  rewrite Hentities in HnewContent.
  assert (entities w !! newContent = None) as Hfresh
    by (rewrite HnewContent; apply fresh_entity).
  apply spread_inv in Hspread as (fa & fb & Ha & Hb & Hreplacement & ->).
  simplWorld. rewrite Hentities in *.
  assert (newContent <> masterKey) as Hne by congruence.
  rewrite lookup_insert_ne in Ha by assumption.
  rewrite lookup_insert_eq in Hb.
  assert (fa = original) as -> by congruence. injection Hb as <-.
  assert (<[newContent := newContentFields method' content]> (entities w) !! replacement = None)
    as Hfresh' by (rewrite Hreplacement; apply not_elem_of_dom, is_fresh).
  apply lookup_insert_None in Hfresh' as [Hfresh' Hne'].
  exists original, (newContentFields method' content),
    (newContentFields method' content ∪ original). simpl.
  split; [assumption |]. split; [apply lookup_insert_eq |].
  split; [apply lookup_insert_eq |]. split; [apply mergedOver_union |].
  split; [assumption |].
  intros l o Hl.
  rewrite !lookup_insert_ne by congruence. assumption.
Qed.

(** C7: each re-encryption operation that returns, returns a new object
    which merges the object that the service's [encryptMasterKeyContent]
    produced over the fields of the master key it was given: a field that
    the service produced has the produced value in the replacement, and
    every other field of the original is in the replacement as it was; the
    original, and every other object there was, is left as it was.  The
    merge [{ ...masterKey, ...newContent }] of the source does so for any
    object in the place of the produced one, whatever fields it has. *)
Theorem reencryption_returns_merged_replacement service masterKey w :
  (forall (decryptionPassword : string) pair (replacement : loc) w',
     reencryptFromPasswordToPublicKey service masterKey decryptionPassword pair w
     = (Ok replacement, w') ->
     exists (keys : Key) (plainText : string) (w1 : World) (newContent : loc) (w2 : World),
       loadPublicKey (publicKey pair) w = (Ok keys, w) /\
       decryptMasterKeyContent (Key := Key) service masterKey decryptionPassword None w
       = (Ok plainText, w1) /\
       encryptMasterKeyContent service (Some Custom) plainText ""
         (Some {| encryptionHandler := Some (ppkEncryptionHandler (id pair) keys) |}) w1
       = (Ok newContent, w2) /\
       replacedBy w masterKey w2 newContent w' replacement)
  /\ (forall pair (decryptionPassword encryptionPassword : string) (replacement : loc) w',
        reencryptFromPublicKeyToPassword service masterKey pair decryptionPassword
          encryptionPassword w = (Ok replacement, w') ->
        exists (keys : Key) (w0 : World) (plainText : string) (w1 : World)
               (newContent : loc) (w2 : World),
          loadPpk service pair decryptionPassword w = (Ok keys, w0) /\
          decryptMasterKeyContent service masterKey ""
            (Some {| encryptionHandler := Some (ppkEncryptionHandler (id pair) keys) |}) w0
          = (Ok plainText, w1) /\
          encryptMasterKeyContent (Key := Key) service None plainText encryptionPassword None w1
          = (Ok newContent, w2) /\
          replacedBy w masterKey w2 newContent w' replacement)
  /\ (forall pair (decryptionPassword : string) pair' (replacement : loc) w',
        ppkReencryptMasterKey service masterKey pair decryptionPassword pair' w
        = (Ok replacement, w') ->
        exists (publicKeys fullKeys : Key) (w0 : World) (plainText : string) (w1 : World)
               (newContent : loc) (w2 : World),
          loadPublicKey (publicKey pair') w = (Ok publicKeys, w) /\
          loadPpk service pair decryptionPassword w = (Ok fullKeys, w0) /\
          decryptMasterKeyContent service masterKey ""
            (Some {| encryptionHandler := Some (ppkEncryptionHandler (id pair) fullKeys) |}) w0
          = (Ok plainText, w1) /\
          encryptMasterKeyContent service None plainText ""
            (Some {| encryptionHandler := Some (ppkEncryptionHandler (id pair') publicKeys) |})
            w1
          = (Ok newContent, w2) /\
          replacedBy w masterKey w2 newContent w' replacement)
  /\ (forall (w2 : World) (newContent replacement : loc) w',
        replacedBy w masterKey w2 newContent w' replacement ->
        exists original produced merged : MasterKeyEntity,
          entities w !! masterKey = Some original /\
          entities w2 !! newContent = Some produced /\
          entities w' !! masterKey = Some original /\
          replacement <> masterKey /\
          entities w' !! replacement = Some merged /\
          (forall (name : string) (v : FieldValue),
             produced !! name = Some v -> merged !! name = Some v) /\
          (forall name : string,
             produced !! name = None -> merged !! name = original !! name) /\
          (forall (l : loc) (o : MasterKeyEntity),
             entities w !! l = Some o -> entities w' !! l = Some o))
  /\ (forall (newContent replacement : loc) w' (original produced : MasterKeyEntity),
        entities w !! masterKey = Some original ->
        entities w !! newContent = Some produced ->
        spread masterKey newContent w = (Ok replacement, w') ->
        replacedBy w masterKey w newContent w' replacement).
Proof.
  split; [| split; [| split; [| split]]].
  - intros decryptionPassword pair replacement w'. unfold reencryptFromPasswordToPublicKey.
    intros (keys & w1 & Hkeys & Hrest)%bind_inv.
    pose proof Hkeys as Hkeys'.
    rewrite loadPublicKey_eq in Hkeys'. injection Hkeys' as _ <-.
    apply merge_inv in Hrest as (plainText & w2 & newContent & w3 & Hplain & Hnew & Hmerged);
      auto using noOptions_keepStore, ppkOptions_keepStore.
    exists keys, plainText, w2, newContent, w3. auto.
  - intros pair decryptionPassword encryptionPassword replacement w'.
    unfold reencryptFromPublicKeyToPassword.
    intros (keys & w0 & Hkeys & Hrest)%bind_inv.
    pose proof (loadPpk_sameStore service pair decryptionPassword w) as Hstore.
    rewrite Hkeys in Hstore.
    apply merge_inv in Hrest as (plainText & w2 & newContent & w3 & Hplain & Hnew & Hmerged);
      auto using noOptions_keepStore, ppkOptions_keepStore.
    exists keys, w0, plainText, w2, newContent, w3.
    repeat split; try assumption. eapply replacedBy_sameStore; eassumption.
  - intros pair decryptionPassword pair' replacement w'. unfold ppkReencryptMasterKey.
    intros (publicKeys & w1 & Hpublic & Hrest)%bind_inv.
    pose proof Hpublic as Hpublic'.
    rewrite loadPublicKey_eq in Hpublic'. injection Hpublic' as _ <-.
    apply bind_inv in Hrest as (fullKeys & w0 & Hfull & Hrest).
    pose proof (loadPpk_sameStore service pair decryptionPassword w) as Hstore.
    rewrite Hfull in Hstore.
    unfold reencryptMasterKey in Hrest.
    apply merge_inv in Hrest as (plainText & w2 & newContent & w3 & Hplain & Hnew & Hmerged);
      auto using ppkOptions_keepStore.
    exists publicKeys, fullKeys, w0, plainText, w2, newContent, w3.
    repeat split; try assumption. eapply replacedBy_sameStore; eassumption.
  - intros w2 newContent replacement w'
      (original & produced & merged & Horiginal & Hproduced & Hmerged & Hfields & Hfresh & Hkept).
    exists original, produced, merged.
    split; [assumption |]. split; [assumption |]. split; [auto |].
    split; [congruence |]. split; [assumption |].
    split; [| split; [| assumption]].
    + intros name v Hname. rewrite (Hfields name), Hname. reflexivity.
    + intros name Hname. rewrite (Hfields name), Hname. reflexivity.
  - intros newContent replacement w' original produced Horiginal Hproduced Hspread.
    apply spread_inv in Hspread as (fa & fb & Ha & Hb & Hreplacement & ->).
    assert (fa = original) as -> by congruence.
    assert (fb = produced) as -> by congruence.
    assert (entities w !! replacement = None) as Hfresh
      by (rewrite Hreplacement; apply not_elem_of_dom, is_fresh).
    exists original, produced, (produced ∪ original). simplWorld.
    split; [assumption |]. split; [assumption |].
    split; [apply lookup_insert_eq |]. split; [apply mergedOver_union |].
    split; [assumption |].
    intros l o Hl. rewrite lookup_insert_ne by congruence. assumption.
Qed.

(** From a password to a public key: the replacement holds the envelope
    of a ciphertext that the full key object decrypts to the content. *)
Lemma reencryptFromPasswordToPublicKey_ok service masterKey (decryptionPassword : string)
    pair (full public : Key) (plainText : string) w :
  NodeRSA.importKey (NodeRSA.setOptions NodeRSA.new nodeRSAOptions) (publicKey pair)
    Pkcs1PublicPem = Ok public ->
  decryptsFor rt rsa full public ->
  (decryptMasterKeyContent (Key := Key) service masterKey decryptionPassword None w).1
  = Ok plainText ->
  exists (replacement : loc) (w' : World) (model : MasterKeyEntity) (c : string)
         (buffer : Buffer),
    reencryptFromPasswordToPublicKey service masterKey decryptionPassword pair w
    = (Ok replacement, w') /\
    entities w' !! replacement = Some model /\
    model !! "content"
    = Some (FString (JSON_stringify (envelope (id pair) nodeRSAEncryptionScheme c))) /\
    Buffer_from (JStr c) Hex = Ok buffer /\
    NodeRSA.decrypt full buffer Utf8 = Ok plainText.
Proof.
  intros Hpublic Hmatch Hplain.
  apply decryptMasterKeyContent_password_inv in Hplain
    as (original & method & content & Horiginal & Hmethod & Hcontent & Hdecrypt).
  unfold reencryptFromPasswordToPublicKey.
  erewrite bind_ok by (rewrite loadPublicKey_eq, Hpublic; reflexivity).
  erewrite bind_ok
    by (erewrite decryptMasterKeyContent_password by eassumption;
        rewrite Hdecrypt; reflexivity).
  set (w1 := logCall (CallServiceDecrypt method) w).
  destruct (Hmatch plainText (rng w1)) as (c & e' & Hc & buffer & Hbuffer & Hback).
  erewrite bind_ok
    by (erewrite encryptMasterKeyContent_handler by (apply handler_encrypt_ok, Hc);
        reflexivity).
  set (newContent := fresh (dom (entities (setRng e' (logCall CallRsaEncrypt w1))))).
  assert (entities w !! newContent = None) as Hfresh by apply (fresh_entity w).
  assert (newContent <> masterKey) as Hne by congruence.
  erewrite spread_ok; simpl;
    [| rewrite lookup_insert_ne by exact Hne; exact Horiginal
     | apply lookup_insert_eq].
  eexists _, _, _, c, buffer. split; [reflexivity |]. simpl.
  split; [apply lookup_insert_eq |].
  split; [apply newContentFields_content |]. split; assumption.
Qed.

(** From a public key to a password: the replacement holds the content
    encrypted by the service under the new password with the default
    method. *)
Lemma reencryptFromPublicKeyToPassword_ok
    (Hjson : JSONRoundTrip rt) service
    (Hencrypts : PasswordEncrypts service
                   (EncryptionService.defaultMasterKeyEncryptionMethod service))
    masterKey pair (decryptionPassword encryptionPassword : string)
    (full public : Key) (model : MasterKeyEntity) (c plainText : string) (buffer : Buffer) w :
  KeyPairWithPassword rt rsa service pair decryptionPassword full public ->
  entities w !! masterKey = Some model ->
  model !! "content"
  = Some (FString (JSON_stringify (envelope (id pair) nodeRSAEncryptionScheme c))) ->
  Buffer_from (JStr c) Hex = Ok buffer ->
  NodeRSA.decrypt full buffer Utf8 = Ok plainText ->
  exists (replacement : loc) (w' : World) (model' : MasterKeyEntity) (content : string)
         (e e' : Entropy),
    reencryptFromPublicKeyToPassword service masterKey pair decryptionPassword
      encryptionPassword w = (Ok replacement, w') /\
    entities w' !! replacement = Some model' /\
    model' !! "encryption_method"
    = Some (FMethod (EncryptionService.defaultMasterKeyEncryptionMethod service)) /\
    model' !! "content" = Some (FString content) /\
    EncryptionService.encrypt service
      (EncryptionService.defaultMasterKeyEncryptionMethod service) encryptionPassword
      plainText e = (Ok content, e').
Proof.
  intros (Hpublic & (pem & Hpem & Hfull) & _) Hmodel Hcontent Hbuffer Hback.
  unfold reencryptFromPublicKeyToPassword.
  erewrite bind_ok by (rewrite loadPpk_eq, Hpublic; simpl; rewrite Hpem, Hfull; reflexivity).
  set (w1 := logCall (CallServiceDecrypt (encryptionMethod (privateKey pair))) w).
  erewrite bind_ok.
  2: { erewrite decryptMasterKeyContent_handler by eassumption.
       erewrite handler_decrypt_match by (try apply Hjson; reflexivity).
       unfoldM. rewrite Hbuffer, Hback. reflexivity. }
  set (w2 := logCall CallRsaDecrypt w1).
  destruct (Hencrypts encryptionPassword plainText (rng w2)) as (content & e' & Hencrypt).
  erewrite bind_ok by (apply encryptMasterKeyContent_password; exact Hencrypt).
  set (w3 := setRng e' (logCall (CallServiceEncrypt _) w2)).
  set (newContent := fresh (dom (entities w3))).
  assert (entities w !! newContent = None) as Hfresh by apply (fresh_entity w).
  assert (newContent <> masterKey) as Hne by congruence.
  erewrite spread_ok; simpl;
    [| rewrite lookup_insert_ne by exact Hne; exact Hmodel
     | apply lookup_insert_eq].
  eexists _, _, _, content, _, e'. split; [reflexivity |]. simpl.
  split; [apply lookup_insert_eq |].
  split; [apply newContentFields_method |].
  split; [apply newContentFields_content | exact Hencrypt].
Qed.

(** C5: for a master key whose content decrypts to [plainText] under a
    password, and a key pair with its password, re-encrypting from the
    password to the public key and then from the key pair to a new
    password returns each time, and the content of the master key that
    comes out decrypts to [plainText] under the new password. *)
Theorem reencryption_symmetry
    (Hjson : JSONRoundTrip rt) service
    (Hround : PasswordRoundTrip service
                (EncryptionService.defaultMasterKeyEncryptionMethod service))
    (Hencrypts : PasswordEncrypts service
                   (EncryptionService.defaultMasterKeyEncryptionMethod service))
    pair (pairPassword : string) (full public : Key)
    (Hpair : KeyPairWithPassword rt rsa service pair pairPassword full public)
    masterKey (password newPassword plainText : string) w :
  (decryptMasterKeyContent (Key := Key) service masterKey password None w).1 = Ok plainText ->
  exists (masterKey1 : loc) (w1 : World) (masterKey2 : loc) (w2 : World),
    reencryptFromPasswordToPublicKey service masterKey password pair w
    = (Ok masterKey1, w1) /\
    reencryptFromPublicKeyToPassword service masterKey1 pair pairPassword newPassword w1
    = (Ok masterKey2, w2) /\
    (decryptMasterKeyContent (Key := Key) service masterKey2 newPassword None w2).1
    = Ok plainText.
Proof.
  intros Hplain.
  pose proof Hpair as (Hpublic & _ & Hmatch).
  destruct (reencryptFromPasswordToPublicKey_ok service masterKey password pair full public
              plainText w Hpublic Hmatch Hplain)
    as (masterKey1 & w1 & model1 & c & buffer & Hfirst & Hmodel1 & Hcontent1 & Hbuffer & Hback).
  destruct (reencryptFromPublicKeyToPassword_ok Hjson service Hencrypts masterKey1 pair
              pairPassword newPassword full public model1 c plainText buffer w1
              Hpair Hmodel1 Hcontent1 Hbuffer Hback)
    as (masterKey2 & w2 & model2 & content & e & e' & Hsecond & Hmodel2 & Hmethod2
        & Hcontent2 & Hencrypt).
  exists masterKey1, w1, masterKey2, w2. split; [exact Hfirst |]. split; [exact Hsecond |].
  erewrite decryptMasterKeyContent_password by eassumption. simpl.
  eapply Hround. exact Hencrypt.
Qed.

End Reencryption.

(** * The reference collaborators satisfy the assumptions *)

Section ReferenceFacts.

Import Reference.

(** stdpp keeps [simpl] from unfolding the concatenation of strings. *)
Lemma append_nil (b : string) : "" +:+ b = b.
Proof. reflexivity. Qed.

Lemma append_cons (x : ascii) (a b : string) : String x a +:+ b = String x (a +:+ b).
Proof. reflexivity. Qed.

Lemma append_assoc (a b c : string) : (a +:+ b) +:+ c = a +:+ (b +:+ c).
Proof.
  induction a as [| x a IH]; [reflexivity |].
  rewrite !append_cons. f_equal. exact IH.
Qed.

Lemma stripPrefix_append (prefix text : string) :
  stripPrefix prefix (prefix +:+ text) = Some text.
Proof.
  induction prefix as [| c prefix IH]; [reflexivity |].
  rewrite append_cons. simpl. rewrite Ascii.eqb_refl. exact IH.
Qed.

(** *** JSON *)

Lemma parseStringBody_escape (s rest : string) :
  parseStringBody (escape s +:+ String quoteChar rest) = Some (s, rest).
Proof.
  induction s as [| c s IH]; [reflexivity |].
  simpl escape.
  destruct (Ascii.eqb c quoteChar) eqn:Hquote; simpl orb; cbv iota.
  - apply Ascii.eqb_eq in Hquote as ->. rewrite !append_cons.
    simpl. rewrite IH. reflexivity.
  - destruct (Ascii.eqb c backslash) eqn:Hbackslash.
    + apply Ascii.eqb_eq in Hbackslash as ->. rewrite !append_cons.
      simpl. rewrite IH. reflexivity.
    + rewrite append_cons. simpl. rewrite Hquote, Hbackslash, IH. reflexivity.
Qed.

Lemma parseString_quote (s rest : string) :
  parseString (quote s +:+ rest) = Some (s, rest).
Proof.
  unfold quote. rewrite append_cons, append_assoc, append_cons, append_nil.
  simpl. apply parseStringBody_escape.
Qed.

#[local] Arguments quote : simpl never.
#[local] Arguments parseString : simpl never.

Lemma stringifyMember_append (key s rest : string) :
  stringifyMember (key, JStr s) +:+ rest = quote key +:+ String ":" (quote s +:+ rest).
Proof.
  unfold stringifyMember. simpl fst. simpl snd.
  rewrite !append_assoc. reflexivity.
Qed.

Lemma parseMembers_stringify (fields : list (string * JsVal)) (fuel : nat) :
  stringMembers fields -> fields <> [] -> length fields <= fuel ->
  parseMembers fuel (joinWith "," (map stringifyMember fields) +:+ "}") = Some fields.
Proof.
  intros Hstrings. revert fuel.
  induction Hstrings as [| [key value] fields [s Hs] Hstrings IH]; [congruence |].
  intros fuel _ Hfuel. simpl in Hs. subst value.
  destruct fuel as [| fuel]; [simpl in Hfuel; lia |].
  destruct fields as [| member fields].
  - simpl map. simpl joinWith. rewrite stringifyMember_append. simpl parseMembers.
    rewrite parseString_quote. simpl. rewrite parseString_quote. reflexivity.
  - change (joinWith "," (map stringifyMember ((key, JStr s) :: member :: fields)))
      with (stringifyMember (key, JStr s)
            +:+ "," +:+ joinWith "," (map stringifyMember (member :: fields))).
    rewrite append_assoc, stringifyMember_append. simpl parseMembers.
    rewrite parseString_quote. simpl. rewrite parseString_quote.
    rewrite append_assoc, append_cons, append_nil. simpl.
    rewrite IH by (simpl in *; (congruence || lia)). reflexivity.
Qed.

Lemma reference_JSONRoundTrip : JSONRoundTrip runtime.
Proof.
  intros ppkId scheme c. unfold envelope.
  set (fields := [("ppkId", JStr ppkId); ("scheme", JStr scheme); ("ciphertext", JStr c)]).
  change (parse ("{" +:+ joinWith "," (map stringifyMember fields) +:+ "}")
          = Ok (JObj fields)).
  set (members := joinWith "," (map stringifyMember fields)).
  rewrite append_cons, append_nil.
  assert (exists rest, members +:+ "}" = String quoteChar rest /\ 2 <= String.length rest)
    as (rest & Hrest & Hlength).
  { subst members fields. simpl map. simpl joinWith. rewrite stringifyMember_append.
    unfold quote at 1. rewrite append_cons. eexists. split; [reflexivity |].
    simpl escape. rewrite !append_cons. simpl. lia. }
  assert (parseMembers (String.length (String "{" (members +:+ "}"))) (members +:+ "}")
          = Some fields) as Hmembers.
  { apply parseMembers_stringify.
    - subst fields. repeat constructor; simpl; eauto.
    - discriminate.
    - rewrite Hrest. simpl. lia. }
  unfold parse. rewrite Hrest in *. simpl in Hmembers |- *. rewrite Hmembers. reflexivity.
Qed.

(** *** Hexadecimal text *)

Lemma hexDecode_hexEncode (bytes : Buffer) : hexDecode (hexEncode bytes) = bytes.
Proof.
  induction bytes as [| b bytes IH]; [reflexivity |].
  simpl hexEncode.
  assert (forall rest : string,
            hexDecode (String (hexDigit (Byte.to_N b / 16))
                         (String (hexDigit (Byte.to_N b mod 16)) rest))
            = b :: hexDecode rest) as ->
    by (intros rest; destruct b; reflexivity).
  rewrite IH. reflexivity.
Qed.


(** *** Keys *)

Lemma reference_decryptsFor (keys keys' : Key) (material : string) :
  privatePart keys = Some material -> publicPart keys' = Some material ->
  decryptsFor runtime rsa keys keys'.
Proof.
  intros Hprivate Hpublic data e.
  cbn [NodeRSA.encrypt NodeRSA.decrypt rsa Buffer_from runtime]. unfold rsaEncrypt, rsaDecrypt.
  rewrite Hpublic, Hprivate.
  eexists _, _. split; [reflexivity |].
  eexists. split; [reflexivity |].
  rewrite hexDecode_hexEncode, string_of_list_byte_of_string, stripPrefix_append.
  reflexivity.
Qed.

Lemma reference_PrivateImportRoundTrip : PrivateImportRoundTrip runtime rsa.
Proof.
  intros keys keys' pem. cbn [NodeRSA.importKey rsa]. unfold importKey.
  destruct (stripPrefix "PRIVATE " pem) as [material |]; [| discriminate].
  intros [= <-]. apply (reference_decryptsFor _ _ material); reflexivity.
Qed.

Lemma reference_ExportedKeysImport : ExportedKeysImport rsa.
Proof.
  intros keys target format pem. cbn [NodeRSA.importKey NodeRSA.exportKey rsa].
  unfold exportKey, importKey.
  destruct format.
  - destruct (privatePart keys) as [material |]; [| discriminate].
    intros [= <-]. rewrite stripPrefix_append. eauto.
  - destruct (publicPart keys) as [material |]; [| discriminate].
    intros [= <-]. rewrite stripPrefix_append. eauto.
Qed.


(** *** The password cipher *)

Lemma reference_PasswordRoundTrip (method : EncryptionMethod) :
  PasswordRoundTrip service method.
Proof.
  intros password plainText c e e'. cbn [EncryptionService.encrypt EncryptionService.decrypt service].
  intros [= <- _].
  rewrite <- append_assoc, stripPrefix_append. reflexivity.
Qed.

Lemma reference_PasswordEncrypts (method : EncryptionMethod) :
  PasswordEncrypts service method.
Proof. intros password plainText e. cbn [EncryptionService.encrypt service]. eauto. Qed.

End ReferenceFacts.

(** * The properties on the reference collaborators *)

Section Witnesses.

Import Reference.

Lemma reference_pairA : KeyPairWithPassword runtime rsa service pairA "abc123" keysA publicKeysA.
Proof.
  split; [reflexivity |]. split.
  - exists "PRIVATE A-material". split; reflexivity.
  - apply (reference_decryptsFor _ _ "A-material"); reflexivity.
Qed.

Lemma decrypt_rejects_other_key_pair_witness :
  let handlerB := ppkEncryptionHandler (id pairB) keysB in
  let env := stringify (envelope (id pairA) "pkcs1_oaep" cipherA) in
  decrypt handlerB (context handlerB) env "" emptyWorld
  = (Throw (Error "Needs private key b-nano-id to decrypt, but using e-nano-id"), emptyWorld)
  /\ trace (decrypt handlerB (context handlerB) env "" emptyWorld).2 = trace emptyWorld.
Proof.
  apply (decrypt_rejects_other_key_pair reference_JSONRoundTrip pairA pairB keysA keysB
           "48656c6c6f" "" "" _ emptyWorld (setRng 1%N (logCall CallRsaEncrypt emptyWorld))
           emptyWorld).
  - vm_compute. discriminate.
  - vm_compute. reflexivity.
Defined.

Lemma handler_round_trip_witness :
  let handlerA := ppkEncryptionHandler (id pairA) keysA in
  exists (env : string) (w2 : World),
    encrypt handlerA (context handlerA) "48656c6c6f" "" emptyWorld = (Ok env, w2) /\
    forall (password2 : string) (w3 : World),
      decrypt handlerA (context handlerA) env password2 w3
      = (Ok "48656c6c6f", logCall CallRsaDecrypt w3).
Proof.
  apply (handler_round_trip reference_JSONRoundTrip reference_PrivateImportRoundTrip
           service pairA "abc123" emptyWorld keysA
           (logCall (CallServiceDecrypt SJCL4) emptyWorld)).
  vm_compute. reflexivity.
Defined.

Lemma ppkPasswordIsValid_generated_witness :
  (ppkPasswordIsValid service (Some pairA) "abc123" emptyWorld).1 = Ok true
  /\ (ppkPasswordIsValid service (Some pairA) "abc12" emptyWorld).1 = Ok false.
Proof.
  destruct (ppkPasswordIsValid_generated service (reference_PasswordRoundTrip SJCL4)
              reference_ExportedKeysImport) as (Hvalid & Hinvalid & _).
  split.
  - eapply (Hvalid "abc123" emptyWorld pairA). vm_compute. reflexivity.
  - eapply (Hinvalid pairA "abc12" emptyWorld). vm_compute. reflexivity.
Defined.

Lemma generateKeyPair_contract_witness :
  (generateKeyPair service "abc123" emptyWorld).1 = Ok pairA
  /\ (generateKeyPair (rsa := brokenRsa) service "abc123" emptyWorld).1
     = Throw (Error "No private key was generated").
Proof.
  split.
  - refine (proj1 (proj2 (proj2 (proj2
             (generateKeyPair_contract service "abc123" emptyWorld)))) _ _
             "PRIVATE A-material" "PUBLIC A-material" "abc123|PRIVATE A-material" 3%N
             _ _ _); vm_compute; reflexivity.
  - refine (proj1 (proj2
             (generateKeyPair_contract (rsa := brokenRsa) service "abc123" emptyWorld)) _).
    vm_compute. reflexivity.
Defined.

Lemma reencryption_symmetry_witness :
  exists (masterKey1 : loc) (w1 : World) (masterKey2 : loc) (w2 : World),
    reencryptFromPasswordToPublicKey service 1%positive "pw" pairA masterKeyWorld
    = (Ok masterKey1, w1) /\
    reencryptFromPublicKeyToPassword service masterKey1 pairA "abc123" "new-pw" w1
    = (Ok masterKey2, w2) /\
    (decryptMasterKeyContent (Key := Key) service masterKey2 "new-pw" None w2).1
    = Ok "c0ffee".
Proof.
  apply (reencryption_symmetry reference_JSONRoundTrip service
           (reference_PasswordRoundTrip _) (reference_PasswordEncrypts _)
           pairA "abc123" keysA publicKeysA reference_pairA).
  vm_compute. reflexivity.
Defined.


Lemma reencryption_returns_merged_replacement_witness :
  (exists (replacement : loc) (w' : World),
     reencryptFromPasswordToPublicKey service 1%positive "pw" pairA masterKeyWorld
     = (Ok replacement, w') /\
     exists (keys : Key) (plainText : string) (w1 : World) (newContent : loc) (w2 : World),
       loadPublicKey (publicKey pairA) masterKeyWorld = (Ok keys, masterKeyWorld) /\
       decryptMasterKeyContent (Key := Key) service 1%positive "pw" None masterKeyWorld
       = (Ok plainText, w1) /\
       encryptMasterKeyContent service (Some Custom) plainText ""
         (Some {| encryptionHandler := Some (ppkEncryptionHandler (id pairA) keys) |}) w1
       = (Ok newContent, w2) /\
       replacedBy masterKeyWorld 1%positive w2 newContent w' replacement)
  /\ (let w := (reencryptFromPasswordToPublicKey service 1%positive "pw" pairA
                  masterKeyWorld).2 in
      exists (replacement : loc) (w' : World),
        reencryptFromPublicKeyToPassword service 3%positive pairA "abc123" "new-pw" w
        = (Ok replacement, w') /\
        exists (keys : Key) (w0 : World) (plainText : string) (w1 : World)
               (newContent : loc) (w2 : World),
          loadPpk service pairA "abc123" w = (Ok keys, w0) /\
          decryptMasterKeyContent service 3%positive ""
            (Some {| encryptionHandler := Some (ppkEncryptionHandler (id pairA) keys) |}) w0
          = (Ok plainText, w1) /\
          encryptMasterKeyContent (Key := Key) service None plainText "new-pw" None w1
          = (Ok newContent, w2) /\
          replacedBy w 3%positive w2 newContent w' replacement).
Proof.
  split.
  - eexists _, _. split; [vm_compute; reflexivity |].
    apply (proj1 (reencryption_returns_merged_replacement service 1%positive masterKeyWorld)
             "pw" pairA).
    vm_compute. reflexivity.
  - eexists _, _. split; [vm_compute; reflexivity |].
    apply (proj1 (proj2 (reencryption_returns_merged_replacement service 3%positive _))
             pairA "abc123" "new-pw").
    vm_compute. reflexivity.
Defined.

Lemma setPpkIfNotExist_contract_witness :
  setPpkIfNotExist getActiveMasterKey getMasterPassword service 1%positive 2%positive
    syncWorldWithRemotePpk = (Ok tt, syncWorldWithRemotePpk)
  /\ syncInfos
       (setPpkIfNotExist getActiveMasterKey getMasterPassword service 1%positive 2%positive
          syncWorld).2 !! 1%positive
     = Some (withPpk localInfoA pairA).
Proof.
  split.
  - refine (proj1 (setPpkIfNotExist_contract getActiveMasterKey getMasterPassword service
                     1%positive 2%positive localInfoA (withPpk remoteInfoA pairB)
                     syncWorldWithRemotePpk _ _) _).
    + vm_compute. reflexivity.
    + vm_compute. reflexivity.
    + right. left. vm_compute. eauto.
  - refine (proj1 (proj2 (proj1 (proj2
             (setPpkIfNotExist_contract getActiveMasterKey getMasterPassword service
                1%positive 2%positive localInfoA remoteInfoA syncWorld _ _)
             _ _ _ "abc123" "abc123" _ _ _) pairA _ _)));
      try (vm_compute; reflexivity).
    + vm_compute. eauto.
    + discriminate.
Defined.

Lemma decrypt_inspects_only_ppkId_witness :
  let handlerA := ppkEncryptionHandler (id pairA) keysA in
  decrypt handlerA (context handlerA) (stringify envelopeWithoutScheme) "" emptyWorld
  = (Ok "48656c6c6f", logCall CallRsaDecrypt emptyWorld)
  /\ decrypt handlerA (context handlerA)
       (stringify (envelope "e-nano-id" "pkcs1_oaep" cipherA)) "" emptyWorld
     = (Throw (Error "Needs private key e-nano-id to decrypt, but using b-nano-id"),
        emptyWorld).
Proof.
  split.
  - refine (proj1 (proj2
             (decrypt_inspects_only_ppkId (id pairA) keysA (stringify envelopeWithoutScheme) ""
                envelopeWithoutScheme (JStr "b-nano-id") emptyWorld _ _))
             _ (JStr cipherA) (hexDecode cipherA) _ _);
      vm_compute; reflexivity.
  - refine (proj2 (proj1
             (decrypt_inspects_only_ppkId (id pairA) keysA
                (stringify (envelope "e-nano-id" "pkcs1_oaep" cipherA)) ""
                (envelope "e-nano-id" "pkcs1_oaep" cipherA) (JStr "e-nano-id") emptyWorld _ _)
             _) "e-nano-id" _);
      [vm_compute; reflexivity | reflexivity | discriminate | reflexivity].
Defined.

End Witnesses.

(** * Further properties of ppk.ts *)

Section MoreHandler.

Context {rt : Runtime} {Key : Type} {rsa : NodeRSA.Api Key}.

Implicit Types (keys : Key) (w : World) (service : EncryptionService.t).
Implicit Types (pair : PublicPrivateKeyPair).

(** X1: what [decrypt] does with an envelope that is no envelope.  The
    error of [JSON.parse] is thrown on; an envelope that parses to [null]
    throws a [TypeError]; an object without [ppkId] is refused as the
    envelope of the key pair [undefined]; and with the right [ppkId], the
    error of [Buffer.from] on the [ciphertext] is thrown on.  In each case
    the world is as it was: the key object was not asked to decrypt. *)
Theorem decrypt_malformed_envelope (ppkId : string) keys (text password : string) w :
  let handler := ppkEncryptionHandler ppkId keys in
  (forall err : Exn,
     JSON_parse text = Throw err ->
     decrypt handler (context handler) text password w = (Throw err, w))
  /\ (JSON_parse text = Ok JNull ->
      exists message : string,
        decrypt handler (context handler) text password w = (Throw (TypeError message), w))
  /\ (forall fields : list (string * JsVal),
        JSON_parse text = Ok (JObj fields) ->
        lookupField fields "ppkId" = JUndefined ->
        decrypt handler (context handler) text password w
        = (Throw (Error ("Needs private key undefined to decrypt, but using " +:+ ppkId)), w))
  /\ (forall (parsed parsedCiphertext : JsVal) (err : Exn),
        JSON_parse text = Ok parsed ->
        getProp parsed "ppkId" = Ok (JStr ppkId) ->
        getProp parsed "ciphertext" = Ok parsedCiphertext ->
        Buffer_from parsedCiphertext Hex = Throw err ->
        decrypt handler (context handler) text password w = (Throw err, w)).
Proof.
  intros handler. unfold handler. repeat split.
  - intros err Hparse. unfoldM. rewrite Hparse. reflexivity.
  - intros Hparse. unfoldM. rewrite Hparse. simpl. eauto.
  - intros fields Hparse Hfield.
    rewrite (handler_decrypt_mismatch _ _ _ _ (JObj fields) JUndefined);
      [reflexivity | assumption | simpl; congruence | discriminate].
  - intros parsed parsedCiphertext err Hparse Hid Hc Hbuffer.
    rewrite (handler_decrypt_match _ _ _ _ parsed) by assumption.
    unfoldM. rewrite Hc, Hbuffer. reflexivity.
Qed.

(** X2: for a key pair with its password, the handler over the key object
    of [loadPublicKey] encrypts what the handler over the key object of
    [loadPpk] decrypts: the first returns an envelope for any text, and
    the second decrypts that envelope to the text. *)
Theorem public_handler_encrypts_for_full_handler
    (Hjson : JSONRoundTrip rt) service pair (pairPassword : string) (full public : Key)
    (Hpair : KeyPairWithPassword rt rsa service pair pairPassword full public) w :
  loadPublicKey (publicKey pair) w = (Ok public, w)
  /\ (loadPpk service pair pairPassword w).1 = Ok full
  /\ forall (hexaBytes password1 : string) (w1 : World),
       let encryptionHandler := ppkEncryptionHandler (id pair) public in
       let decryptionHandler := ppkEncryptionHandler (id pair) full in
       exists (env : string) (w2 : World),
         encrypt encryptionHandler (context encryptionHandler) hexaBytes password1 w1
         = (Ok env, w2) /\
         forall (password2 : string) (w3 : World),
           decrypt decryptionHandler (context decryptionHandler) env password2 w3
           = (Ok hexaBytes, logCall CallRsaDecrypt w3).
Proof.
  destruct Hpair as (Hpublic & (pem & Hpem & Hfull) & Hmatch).
  split; [rewrite loadPublicKey_eq, Hpublic; reflexivity |].
  split; [rewrite loadPpk_eq, Hpublic; simpl; rewrite Hpem, Hfull; reflexivity |].
  intros hexaBytes password1 w1 encryptionHandler decryptionHandler.
  destruct (Hmatch hexaBytes (rng w1)) as (c & e' & Hc & buffer & Hbuffer & Hback).
  eexists _, _. split; [apply handler_encrypt_ok; exact Hc |].
  intros password2 w3. unfold decryptionHandler.
  rewrite (handler_decrypt_match _ _ _ _ (envelope (id pair) nodeRSAEncryptionScheme c))
    by (try apply Hjson; reflexivity).
  unfoldM. rewrite Hbuffer, Hback. reflexivity.
Qed.

(** X3: a key pair that [generateKeyPair] returned is a key pair with the
    password it was generated with: its public key imports, its private
    key decrypts under the password to a key that imports, and the key
    object so loaded undoes what the public one encrypts. *)
Theorem generated_pair_loads
    service (Hservice : PasswordRoundTrip service SJCL4)
    (Himport : ExportedKeysImport rsa) (Hmatch : GeneratedPairMatches rt rsa)
    (password : string) w pair w1 :
  generateKeyPair service password w = (Ok pair, w1) ->
  exists full public : Key,
    KeyPairWithPassword rt rsa service pair password full public.
Proof.
  intros Hgen.
  apply generateKeyPair_inv in Hgen
    as (pem & c & e & e' & Hpem & Hc & Hprivate & Hpublic & _).
  destruct (Himport _ (NodeRSA.setOptions NodeRSA.new nodeRSAOptions) _ _ Hpublic)
    as [public Hpublic'].
  destruct (Himport _ public _ _ Hpem) as [full Hfull].
  exists full, public. split; [exact Hpublic' |]. split.
  - exists pem. rewrite Hprivate. simpl. split; [| exact Hfull].
    eapply Hservice. exact Hc.
  - unfold requestedKeys in Hpem, Hpublic.
    eapply Hmatch; eassumption.
Qed.

(** X4: [decryptPrivateKey] undoes [encryptPrivateKey] under the same
    password: the private key records the method [SJCL4] it was encrypted
    with, and decryption goes by the recorded method. *)
Theorem privateKey_round_trip
    service (Hservice : PasswordRoundTrip service SJCL4)
    (password plainText : string) w (key : PrivateKey) w1 :
  encryptPrivateKey service password plainText w = (Ok key, w1) ->
  encryptionMethod key = SJCL4 /\
  forall w2 : World,
    decryptPrivateKey service key password w2
    = (Ok plainText, logCall (CallServiceDecrypt SJCL4) w2).
Proof.
  unfold encryptPrivateKey, decryptPrivateKey. unfoldM.
  destruct (EncryptionService.encrypt _ _ _ _ _) as [[c | err] e] eqn:Hc; [| discriminate].
  intros [= <- _]. simpl. split; [reflexivity |].
  intros w2. rewrite (Hservice _ _ _ _ _ Hc). reflexivity.
Qed.

(** X5: a key pair whose public key does not import never validates, and
    the service is not asked: whatever the password, [ppkPasswordIsValid]
    returns [false] and leaves the world, its trace included, as it was.
    The same answer comes out when the private key decrypts to a text that
    does not import. *)
Theorem ppkPasswordIsValid_corrupt_key service pair (password : string) w :
  (forall err : Exn,
     NodeRSA.importKey (NodeRSA.setOptions NodeRSA.new nodeRSAOptions) (publicKey pair)
       Pkcs1PublicPem = Throw err ->
     ppkPasswordIsValid service (Some pair) password w = (Ok false, w))
  /\ (forall (public : Key) (pem : string) (err : Exn),
        NodeRSA.importKey (NodeRSA.setOptions NodeRSA.new nodeRSAOptions) (publicKey pair)
          Pkcs1PublicPem = Ok public ->
        EncryptionService.decrypt service (encryptionMethod (privateKey pair)) password
          (ciphertext (privateKey pair)) = Ok pem ->
        NodeRSA.importKey public pem Pkcs1PrivatePem = Throw err ->
        (ppkPasswordIsValid service (Some pair) password w).1 = Ok false).
Proof.
  split.
  - intros err Hpublic. rewrite ppkPasswordIsValid_eq, loadPpk_eq, Hpublic. reflexivity.
  - intros public pem err Hpublic Hpem Hfull.
    rewrite ppkPasswordIsValid_eq, loadPpk_eq, Hpublic. simpl.
    rewrite Hpem, Hfull. reflexivity.
Qed.


End MoreHandler.

Section MoreSaving.

Context {rt : Runtime} {Key : Type} {rsa : NodeRSA.Api Key}.
Variable getActiveMasterKey : SyncInfo -> option loc.
Variable getMasterPassword : option bool -> World -> Result string.

Implicit Types (service : EncryptionService.t) (w : World) (localInfo remoteInfo : loc).

Lemma sameButLocalInfo_refl localInfo w : sameButLocalInfo localInfo w w.
Proof. repeat split. Qed.

Lemma sameButLocalInfo_sameStore localInfo w w' :
  sameStore w w' -> sameButLocalInfo localInfo w w'.
Proof.
  intros (Hclock & Hsettings & Hentities & Hinfos & _).
  repeat split; try assumption. intros l _. rewrite Hinfos. reflexivity.
Qed.

(** Whatever it returns, [generateKeyPairAndSave] writes to no object
    but [localInfo]. *)
Lemma generateKeyPairAndSave_frame service localInfo (password : string) w :
  sameButLocalInfo localInfo w (generateKeyPairAndSave service localInfo password w).2.
Proof.
  pose proof (generateKeyPair_sameStore service password w) as Hstore.
  destruct (generateKeyPair service password w) as [[pair | err] w1] eqn:Hgen.
  - destruct (syncInfos w !! localInfo) as [local |] eqn:Hlocal.
    + rewrite (generateKeyPairAndSave_ok _ _ _ _ _ _ _ Hlocal Hgen).
      destruct Hstore as (Hclock & Hsettings & Hentities & Hinfos & _).
      unfold sameButLocalInfo, assignedAndSaved. simplWorld. repeat split; try assumption.
      intros l Hl. rewrite lookup_insert_ne by congruence. rewrite Hinfos. reflexivity.
    + unfold generateKeyPairAndSave. rewrite (bind_ok _ _ _ _ _ Hgen).
      destruct Hstore as (Hclock & Hsettings & Hentities & Hinfos & Hsaved).
      simpl in Hinfos. unfold assignPpk, readSyncInfo. unfoldM.
      rewrite Hinfos, Hlocal. simpl. repeat split; try assumption.
      intros l _. rewrite Hinfos. reflexivity.
  - rewrite (generateKeyPairAndSave_throw _ _ _ _ _ _ Hgen).
    apply sameButLocalInfo_sameStore. exact Hstore.
Qed.

(** [setPpkIfNotExist], step by step, whatever the references hold. *)
Lemma setPpkIfNotExist_steps service localInfo remoteInfo w :
  setPpkIfNotExist getActiveMasterKey getMasterPassword service localInfo remoteInfo w
  = match syncInfos w !! localInfo with
    | None => (Throw (TypeError "Cannot read properties of null"), w)
    | Some local =>
        match ppk local with
        | Some _ => (Ok tt, w)
        | None =>
            match syncInfos w !! remoteInfo with
            | None => (Throw (TypeError "Cannot read properties of null"), w)
            | Some remote =>
                if bool_decide (is_Some (ppk remote)) then (Ok tt, w)
                else if negb (bool_decide (is_Some (getActiveMasterKey local))) then (Ok tt, w)
                else
                  match getMasterPassword (Some false) w with
                  | Throw err => (Throw err, w)
                  | Ok password =>
                      if String.eqb password "" then (Ok tt, w)
                      else
                        match getMasterPassword None w with
                        | Throw err => (Throw err, w)
                        | Ok password' =>
                            match generateKeyPairAndSave service localInfo password' w with
                            | (Ok _, w') => (Ok tt, w')
                            | (Throw err, w') => (Throw err, w')
                            end
                        end
                  end
            end
        end
    end.
Proof.
  unfold setPpkIfNotExist, readSyncInfo. unfoldM.
  destruct (syncInfos w !! localInfo) as [local |]; [| reflexivity].
  destruct (ppk local) as [pair |]; simpl; [reflexivity |].
  destruct (syncInfos w !! remoteInfo) as [remote |]; [| reflexivity]. simpl.
  destruct (bool_decide (is_Some (ppk remote))); [reflexivity |]. simpl.
  destruct (negb (bool_decide (is_Some (getActiveMasterKey local)))); [reflexivity |].
  destruct (getMasterPassword (Some false) w) as [password | err]; [| reflexivity].
  destruct (String.eqb password ""); [reflexivity |].
  destruct (getMasterPassword None w) as [password' | err]; [| reflexivity].
  destruct (generateKeyPairAndSave service localInfo password' w) as [[pair | err] w'];
    reflexivity.
Qed.

(** X7: [generateKeyPairAndSave] overwrites.  Where the generation
    returns a key pair, the function returns it, [localInfo.ppk] is that
    pair whatever it was before, the other fields of [localInfo] and every
    other sync info are as they were, and exactly one state of [localInfo],
    the new one, is added to what is saved.  Where the generation throws,
    the error is thrown on and nothing is assigned or saved. *)
Theorem generateKeyPairAndSave_overwrites service localInfo (local : SyncInfo)
    (password : string) w :
  syncInfos w !! localInfo = Some local ->
  let outcome := generateKeyPairAndSave service localInfo password w in
  (forall (pair : PublicPrivateKeyPair) w1,
     generateKeyPair service password w = (Ok pair, w1) ->
     outcome.1 = Ok pair /\
     syncInfos outcome.2 !! localInfo
     = Some {| ppk := Some pair; masterKeys := masterKeys local;
               activeMasterKeyId := activeMasterKeyId local |} /\
     (forall l : loc, l <> localInfo -> syncInfos outcome.2 !! l = syncInfos w !! l) /\
     savedLocalSyncInfo outcome.2
     = (savedLocalSyncInfo w
        ++ [{| ppk := Some pair; masterKeys := masterKeys local;
               activeMasterKeyId := activeMasterKeyId local |}])%list /\
     entities outcome.2 = entities w)
  /\ (forall (err : Exn) w1,
        generateKeyPair service password w = (Throw err, w1) ->
        outcome.1 = Throw err /\
        syncInfos outcome.2 = syncInfos w /\
        savedLocalSyncInfo outcome.2 = savedLocalSyncInfo w).
Proof.
  intros Hlocal outcome. subst outcome.
  pose proof (generateKeyPair_sameStore service password w) as Hstore.
  pose proof (generateKeyPairAndSave_frame service localInfo password w)
    as (_ & _ & Hentities & Hothers).
  split.
  - intros pair w1 Hgen. rewrite Hgen in Hstore.
    destruct Hstore as (_ & _ & _ & _ & Hsaved).
    rewrite (generateKeyPairAndSave_ok _ _ _ _ _ _ _ Hlocal Hgen) in *.
    unfold assignedAndSaved, withPpk in *. simplWorld.
    rewrite lookup_insert_eq, Hsaved. repeat split; assumption.
  - intros err w1 Hgen. rewrite Hgen in Hstore.
    destruct Hstore as (_ & _ & _ & Hinfos & Hsaved).
    rewrite (generateKeyPairAndSave_throw _ _ _ _ _ _ Hgen). repeat split; assumption.
Qed.

(** X8: [setPpkIfNotExist] is idempotent: from the world in which a call
    returned, a second call with the same arguments returns and changes
    nothing. *)
Theorem setPpkIfNotExist_idempotent service localInfo remoteInfo w w1 :
  setPpkIfNotExist getActiveMasterKey getMasterPassword service localInfo remoteInfo w
  = (Ok tt, w1) ->
  setPpkIfNotExist getActiveMasterKey getMasterPassword service localInfo remoteInfo w1
  = (Ok tt, w1).
Proof.
  intros Hfirst.
  assert (w1 = w \/
          exists (local : SyncInfo) (pair : PublicPrivateKeyPair),
            syncInfos w1 !! localInfo = Some (withPpk local pair)) as [-> | Hgenerated].
  { rewrite setPpkIfNotExist_steps in Hfirst.
    destruct (syncInfos w !! localInfo) as [local |] eqn:Hlocal; [| discriminate].
    destruct (ppk local) as [pair |]; [left; congruence |].
    destruct (syncInfos w !! remoteInfo) as [remote |]; [| discriminate].
    destruct (bool_decide (is_Some (ppk remote))); [left; congruence |].
    destruct (negb (bool_decide (is_Some (getActiveMasterKey local)))); [left; congruence |].
    destruct (getMasterPassword (Some false) w) as [password | err]; [| discriminate].
    destruct (String.eqb password ""); [left; congruence |].
    destruct (getMasterPassword None w) as [password' | err]; [| discriminate].
    destruct (generateKeyPair service password' w) as [[pair | err] w2] eqn:Hgen.
    - rewrite (generateKeyPairAndSave_ok _ _ _ _ _ _ _ Hlocal Hgen) in Hfirst.
      injection Hfirst as <-. right. exists local, pair.
      unfold assignedAndSaved. simplWorld. apply lookup_insert_eq.
    - rewrite (generateKeyPairAndSave_throw _ _ _ _ _ _ Hgen) in Hfirst. discriminate. }
  - exact Hfirst.
  - destruct Hgenerated as (local & pair & Hlocal).
    rewrite setPpkIfNotExist_steps, Hlocal. reflexivity.
Qed.

(** X9: [setPpkIfNotExist] writes to [localInfo] only: whatever it
    returns or throws, the sync info behind every other reference,
    [remoteInfo] among them when it is another object, the master keys, the
    settings and the clock are as they were. *)
Theorem setPpkIfNotExist_writes_localInfo_only service localInfo remoteInfo w :
  let outcome := setPpkIfNotExist getActiveMasterKey getMasterPassword service
                   localInfo remoteInfo w in
  clock outcome.2 = clock w /\
  settings outcome.2 = settings w /\
  entities outcome.2 = entities w /\
  (forall l : loc, l <> localInfo -> syncInfos outcome.2 !! l = syncInfos w !! l).
Proof.
  intros outcome. subst outcome.
  enough (sameButLocalInfo localInfo w
            (setPpkIfNotExist getActiveMasterKey getMasterPassword service
               localInfo remoteInfo w).2) as Hframe by exact Hframe.
  rewrite setPpkIfNotExist_steps.
  destruct (syncInfos w !! localInfo) as [local |]; [| apply sameButLocalInfo_refl].
  destruct (ppk local) as [pair |]; [apply sameButLocalInfo_refl |].
  destruct (syncInfos w !! remoteInfo) as [remote |]; [| apply sameButLocalInfo_refl].
  destruct (bool_decide (is_Some (ppk remote))); [apply sameButLocalInfo_refl |].
  destruct (negb (bool_decide (is_Some (getActiveMasterKey local))));
    [apply sameButLocalInfo_refl |].
  destruct (getMasterPassword (Some false) w) as [password | err];
    [| apply sameButLocalInfo_refl].
  destruct (String.eqb password ""); [apply sameButLocalInfo_refl |].
  destruct (getMasterPassword None w) as [password' | err]; [| apply sameButLocalInfo_refl].
  pose proof (generateKeyPairAndSave_frame service localInfo password' w) as Hframe.
  destruct (generateKeyPairAndSave service localInfo password' w) as [[pair | err] w'];
    exact Hframe.
Qed.

(** X10: [remoteInfo] is read only when [localInfo] has no key pair.
    With a key pair in [localInfo] the call returns and changes nothing even
    for a [remoteInfo] that is [null]; without one, a [null] [remoteInfo]
    throws a [TypeError], and nothing is generated. *)
Theorem setPpkIfNotExist_reads_remoteInfo_last service localInfo remoteInfo
    (local : SyncInfo) w :
  syncInfos w !! localInfo = Some local ->
  (is_Some (ppk local) ->
   setPpkIfNotExist getActiveMasterKey getMasterPassword service localInfo remoteInfo w
   = (Ok tt, w))
  /\ (ppk local = None -> syncInfos w !! remoteInfo = None ->
      exists message : string,
        setPpkIfNotExist getActiveMasterKey getMasterPassword service localInfo remoteInfo w
        = (Throw (TypeError message), w)).
Proof.
  intros Hlocal. rewrite setPpkIfNotExist_steps, Hlocal. split.
  - intros [pair ->]. reflexivity.
  - intros -> ->. eauto.
Qed.

End MoreSaving.

Section MoreMasterKeys.

Context {rt : Runtime} {Key : Type} {rsa : NodeRSA.Api Key}.

Implicit Types (service : EncryptionService.t) (w : World) (masterKey : loc).
Implicit Types (pair : PublicPrivateKeyPair).
Implicit Types (options : option (EncryptOptions Key)).

(** [ppkDecryptMasterKeyContent] on a master key whose content is an
    envelope of the key pair. *)
Lemma ppkDecryptMasterKeyContent_ok
    (Hjson : JSONRoundTrip rt) service masterKey pair (pairPassword : string)
    (full public : Key) (model : MasterKeyEntity) (c plainText : string) (buffer : Buffer) w :
  KeyPairWithPassword rt rsa service pair pairPassword full public ->
  entities w !! masterKey = Some model ->
  model !! "content"
  = Some (FString (JSON_stringify (envelope (id pair) nodeRSAEncryptionScheme c))) ->
  Buffer_from (JStr c) Hex = Ok buffer ->
  NodeRSA.decrypt full buffer Utf8 = Ok plainText ->
  (ppkDecryptMasterKeyContent service masterKey pair pairPassword w).1 = Ok plainText.
Proof.
  intros (Hpublic & (pem & Hpem & Hfull) & _) Hmodel Hcontent Hbuffer Hback.
  unfold ppkDecryptMasterKeyContent.
  erewrite bind_ok by (rewrite loadPpk_eq, Hpublic; simpl; rewrite Hpem, Hfull; reflexivity).
  erewrite decryptMasterKeyContent_handler by eassumption.
  erewrite handler_decrypt_match by (try apply Hjson; reflexivity).
  unfoldM. rewrite Hbuffer, Hback. reflexivity.
Qed.

(** What was encrypted through the handler of a key pair holds an
    envelope with the id of that pair. *)
Lemma merge_with_handler_inv service masterKey (decrypted : M string)
    (method : option EncryptionMethod) (password ppkId : string) (keys : Key)
    w (replacement : loc) w' :
  (let! plainText := decrypted in
   let! newContent := encryptMasterKeyContent service method plainText password
                        (Some {| encryptionHandler := Some (ppkEncryptionHandler ppkId keys) |}) in
   spread masterKey newContent) w = (Ok replacement, w') ->
  exists (model : MasterKeyEntity) (c : string),
    entities w' !! replacement = Some model /\
    model !! "content"
    = Some (FString (JSON_stringify (envelope ppkId nodeRSAEncryptionScheme c))).
Proof.
  intros (plainText & w1 & _ & Hrest)%bind_inv.
  apply bind_inv in Hrest as (newContent & w2 & Hnew & Hspread).
  unfold encryptMasterKeyContent in Hnew. simpl handlerOf in Hnew. cbv iota in Hnew.
  apply bind_inv in Hnew as (content & w3 & Hencrypt & Hnew).
  apply handler_encrypt_inv in Hencrypt as (c & e' & _ & -> & _).
  injection Hnew as <- <-.
  apply spread_inv in Hspread as (fa & fb & _ & Hb & _ & ->).
  simplWorld. rewrite lookup_insert_eq in Hb. injection Hb as <-.
  eexists _, c. split; [apply lookup_insert_eq |]. apply newContentFields_content.
Qed.

Lemma decryptMasterKeyContent_sameStore service masterKey (password : string) options w :
  optionsKeepStore options ->
  sameStore w (decryptMasterKeyContent service masterKey password options w).2.
Proof.
  intros Hkeeps. unfold decryptMasterKeyContent, readEntity, stringField, methodField.
  unfoldM.
  destruct (entities w !! masterKey) as [model |]; [| repeat split].
  destruct (handlerOf options) as [handler |] eqn:Hhandler.
  - destruct (model !! "content") as [[content | | |] |]; try (repeat split; fail).
    pose proof (Hkeeps handler Hhandler (context handler) content password w) as [_ Hstore].
    destruct (decrypt handler (context handler) content password w) as [[] ?]; exact Hstore.
  - destruct (model !! "encryption_method") as [[| | | method] |]; try (repeat split; fail).
    destruct (model !! "content") as [[content | | |] |]; repeat split.
Qed.

Lemma encryptMasterKeyContent_throw service (method : option EncryptionMethod)
    (hexaBytes password : string) options w (err : Exn) w' :
  optionsKeepStore options ->
  encryptMasterKeyContent service method hexaBytes password options w = (Throw err, w') ->
  sameStore w w'.
Proof.
  intros Hkeeps. unfold encryptMasterKeyContent.
  destruct (handlerOf options) as [handler |] eqn:Hhandler.
  - pose proof (Hkeeps handler Hhandler (context handler) hexaBytes password w) as [Hstore _].
    unfold bind. destruct (encrypt handler (context handler) hexaBytes password w)
      as [[content | err'] w1]; [discriminate |].
    intros [= _ <-]. exact Hstore.
  - unfoldM. destruct (EncryptionService.encrypt _ _ _ _ _) as [[c | err'] e]; [discriminate |].
    intros [= _ <-]. repeat split.
Qed.

(** The tail of a re-encryption operation that throws has allocated
    nothing. *)
Lemma merge_throw_sameStore service masterKey (password1 password2 : string)
    (method : option EncryptionMethod) (decryptOptions encryptOptions : option (EncryptOptions Key))
    w (err : Exn) w' :
  optionsKeepStore decryptOptions ->
  optionsKeepStore encryptOptions ->
  (let! plainText := decryptMasterKeyContent service masterKey password1 decryptOptions in
   let! newContent := encryptMasterKeyContent service method plainText password2
                        encryptOptions in
   spread masterKey newContent) w = (Throw err, w') ->
  sameStore w w'.
Proof.
  intros Hdecrypt Hencrypt Hthrow.
  pose proof (decryptMasterKeyContent_sameStore service masterKey password1 decryptOptions w
                Hdecrypt) as Hstore1.
  unfold bind in Hthrow at 1.
  destruct (decryptMasterKeyContent service masterKey password1 decryptOptions w)
    as [[plainText | err1] w1] eqn:Hplain.
  2: { injection Hthrow as _ <-. exact Hstore1. }
  simpl in Hstore1.
  apply decryptMasterKeyContent_inv in Hplain as [_ [original Horiginal]]; [| assumption].
  unfold bind in Hthrow at 1.
  destruct (encryptMasterKeyContent service method plainText password2 encryptOptions w1)
    as [[newContent | err2] w2] eqn:Hnew.
  2: { injection Hthrow as _ <-.
       eapply sameStore_trans; [exact Hstore1 |].
       eapply encryptMasterKeyContent_throw; eassumption. }
  apply encryptMasterKeyContent_inv in Hnew
    as (w1' & method' & content & Hstore2 & HnewContent & ->); [| assumption].
  pose proof (sameStore_trans _ _ _ Hstore1 Hstore2) as (_ & _ & Hentities & _).
  assert (entities w !! newContent = None) as Hfresh
    by (rewrite HnewContent, Hentities; apply fresh_entity).
  assert (newContent <> masterKey) as Hne by congruence.
  erewrite spread_ok in Hthrow; [discriminate | |].
  - simplWorld. rewrite lookup_insert_ne by exact Hne. rewrite Hentities. exact Horiginal.
  - simplWorld. apply lookup_insert_eq.
Qed.

(** X11: for a master key whose content decrypts to [plainText] under a
    password, and a key pair with its password, re-encrypting from the
    password to the public key returns a master key from which
    [ppkDecryptMasterKeyContent], with the key pair and its password,
    recovers [plainText]. *)
Theorem ppkDecryptMasterKeyContent_after_reencryption
    (Hjson : JSONRoundTrip rt) service pair (pairPassword : string) (full public : Key)
    (Hpair : KeyPairWithPassword rt rsa service pair pairPassword full public)
    masterKey (password plainText : string) w :
  (decryptMasterKeyContent (Key := Key) service masterKey password None w).1 = Ok plainText ->
  exists (masterKey1 : loc) (w1 : World),
    reencryptFromPasswordToPublicKey service masterKey password pair w = (Ok masterKey1, w1) /\
    (ppkDecryptMasterKeyContent service masterKey1 pair pairPassword w1).1 = Ok plainText.
Proof.
  intros Hplain. pose proof Hpair as (Hpublic & _ & Hmatch).
  destruct (reencryptFromPasswordToPublicKey_ok service masterKey password pair full public
              plainText w Hpublic Hmatch Hplain)
    as (masterKey1 & w1 & model1 & c & buffer & Hfirst & Hmodel1 & Hcontent1 & Hbuffer & Hback).
  exists masterKey1, w1. split; [exact Hfirst |].
  eapply ppkDecryptMasterKeyContent_ok; eassumption.
Qed.

(** X12: rotation from one key pair to another.  For a master key from
    which [ppkDecryptMasterKeyContent] recovers [plainText] with a first
    key pair, and a second key pair with its password,
    [ppkReencryptMasterKey] returns a master key from which
    [ppkDecryptMasterKeyContent] recovers [plainText] with the second key
    pair. *)
Theorem ppkReencryptMasterKey_rotates
    (Hjson : JSONRoundTrip rt) service
    (pair1 : PublicPrivateKeyPair) (password1 : string)
    (pair2 : PublicPrivateKeyPair) (password2 : string) (full2 public2 : Key)
    (Hpair2 : KeyPairWithPassword rt rsa service pair2 password2 full2 public2)
    masterKey (plainText : string) w :
  (ppkDecryptMasterKeyContent service masterKey pair1 password1 w).1 = Ok plainText ->
  exists (masterKey' : loc) (w' : World),
    ppkReencryptMasterKey service masterKey pair1 password1 pair2 w = (Ok masterKey', w') /\
    (ppkDecryptMasterKeyContent service masterKey' pair2 password2 w').1 = Ok plainText.
Proof.
  intros Hplain. pose proof Hpair2 as (Hpublic2 & _ & Hmatch2).
  unfold ppkDecryptMasterKeyContent in Hplain. unfold bind in Hplain at 1.
  pose proof (loadPpk_sameStore service pair1 password1 w) as Hstore1.
  destruct (loadPpk service pair1 password1 w) as [[full1 | err] w1] eqn:Hload1;
    [| discriminate].
  simpl in Hstore1.
  destruct (decryptMasterKeyContent service masterKey ""
              (Some {| encryptionHandler := Some (ppkEncryptionHandler (id pair1) full1) |}) w1)
    as [[plainText' | err] w2] eqn:Hdecrypt; [| discriminate].
  simpl in Hplain. injection Hplain as ->.
  pose proof Hdecrypt as Hdecrypt'.
  apply decryptMasterKeyContent_inv in Hdecrypt' as [Hstore2 [original Horiginal]];
    [| apply ppkOptions_keepStore].
  unfold ppkReencryptMasterKey, reencryptMasterKey.
  erewrite bind_ok by (rewrite loadPublicKey_eq, Hpublic2; reflexivity).
  rewrite (bind_ok _ _ _ _ _ Hload1). rewrite (bind_ok _ _ _ _ _ Hdecrypt).
  destruct (Hmatch2 plainText (rng w2)) as (c & e' & Hc & buffer & Hbuffer & Hback).
  erewrite bind_ok
    by (erewrite encryptMasterKeyContent_handler by (apply handler_encrypt_ok, Hc);
        reflexivity).
  set (newContent := fresh (dom (entities (setRng e' (logCall CallRsaEncrypt w2))))).
  assert (entities w2 !! newContent = None) as Hfresh by apply (fresh_entity w2).
  destruct Hstore2 as (_ & _ & Hentities2 & _).
  rewrite Hentities2 in Hfresh.
  assert (newContent <> masterKey) as Hne by congruence.
  erewrite spread_ok; simpl;
    [| rewrite lookup_insert_ne by exact Hne; rewrite Hentities2; exact Horiginal
     | apply lookup_insert_eq].
  eexists _, _. split; [reflexivity |].
  eapply (ppkDecryptMasterKeyContent_ok Hjson); try eassumption.
  - simpl. apply lookup_insert_eq.
  - apply newContentFields_content.
Qed.

(** X13: a master key that was re-encrypted for one key pair, from a
    password or from another key pair, is refused to a key pair with another
    id: [ppkDecryptMasterKeyContent] with a key pair that loads throws the
    key mismatch error that names the two ids, without asking its key object
    to decrypt. *)
Theorem ppkDecryptMasterKeyContent_rejects_other_key_pair
    (Hjson : JSONRoundTrip rt) service masterKey
    (password : string) (pair0 pair1 pair2 : PublicPrivateKeyPair) (password2 : string)
    w (masterKey1 : loc) w1 (keys2 : Key) w2 :
  reencryptFromPasswordToPublicKey service masterKey password pair1 w = (Ok masterKey1, w1)
  \/ ppkReencryptMasterKey service masterKey pair0 password pair1 w = (Ok masterKey1, w1) ->
  id pair1 <> id pair2 ->
  loadPpk service pair2 password2 w1 = (Ok keys2, w2) ->
  ppkDecryptMasterKeyContent service masterKey1 pair2 password2 w1
  = (Throw (Error ("Needs private key " +:+ id pair1 +:+ " to decrypt, but using "
                   +:+ id pair2)), w2).
Proof.
  intros Hreencrypted Hne Hload.
  assert (exists (model : MasterKeyEntity) (c : string),
            entities w1 !! masterKey1 = Some model /\
            model !! "content"
            = Some (FString (JSON_stringify (envelope (id pair1) nodeRSAEncryptionScheme c))))
    as (model & c & Hmodel & Hcontent).
  { destruct Hreencrypted as [Hfirst | Hfirst].
    - unfold reencryptFromPasswordToPublicKey in Hfirst.
      apply bind_inv in Hfirst as (keys & w' & _ & Hrest).
      eapply merge_with_handler_inv. exact Hrest.
    - unfold ppkReencryptMasterKey, reencryptMasterKey in Hfirst.
      apply bind_inv in Hfirst as (publicKeys & w' & _ & Hrest).
      apply bind_inv in Hrest as (fullKeys & w'' & _ & Hrest).
      eapply merge_with_handler_inv. exact Hrest. }
  pose proof (loadPpk_sameStore service pair2 password2 w1) as (_ & _ & Hentities & _).
  rewrite Hload in Hentities. simpl in Hentities.
  unfold ppkDecryptMasterKeyContent. rewrite (bind_ok _ _ _ _ _ Hload).
  erewrite decryptMasterKeyContent_handler
    by (try rewrite Hentities; eassumption).
  rewrite (handler_decrypt_mismatch _ _ _ _
             (envelope (id pair1) nodeRSAEncryptionScheme c) (JStr (id pair1)));
    [reflexivity | apply Hjson | reflexivity | congruence].
Qed.

(** X14: a re-encryption operation that throws has created no object and
    changed none: the master keys, sync infos, saved data, settings and
    clock are as they were. *)
Theorem reencryption_failure_changes_nothing service masterKey w (err : Exn) w' :
  (forall (decryptionPassword : string) pair,
     reencryptFromPasswordToPublicKey service masterKey decryptionPassword pair w
     = (Throw err, w') ->
     sameStore w w')
  /\ (forall pair (decryptionPassword encryptionPassword : string),
        reencryptFromPublicKeyToPassword service masterKey pair decryptionPassword
          encryptionPassword w = (Throw err, w') ->
        sameStore w w')
  /\ (forall pair (decryptionPassword : string) pair',
        ppkReencryptMasterKey service masterKey pair decryptionPassword pair' w
        = (Throw err, w') ->
        sameStore w w').
Proof.
  split; [| split].
  - intros decryptionPassword pair. unfold reencryptFromPasswordToPublicKey.
    unfold bind at 1. rewrite loadPublicKey_eq.
    destruct (NodeRSA.importKey _ _ _) as [keys | err']; [| intros [= _ <-]; repeat split].
    apply merge_throw_sameStore; auto using noOptions_keepStore, ppkOptions_keepStore.
  - intros pair decryptionPassword encryptionPassword.
    unfold reencryptFromPublicKeyToPassword. unfold bind at 1.
    pose proof (loadPpk_sameStore service pair decryptionPassword w) as Hstore.
    destruct (loadPpk service pair decryptionPassword w) as [[keys | err'] w1].
    + intros Hthrow. eapply sameStore_trans; [exact Hstore |].
      eapply merge_throw_sameStore; [| | exact Hthrow];
        auto using noOptions_keepStore, ppkOptions_keepStore.
    + intros [= _ <-]. exact Hstore.
  - intros pair decryptionPassword pair'. unfold ppkReencryptMasterKey, reencryptMasterKey.
    unfold bind at 1. rewrite loadPublicKey_eq.
    destruct (NodeRSA.importKey _ _ _) as [publicKeys | err']; [| intros [= _ <-]; repeat split].
    unfold bind at 1.
    pose proof (loadPpk_sameStore service pair decryptionPassword w) as Hstore.
    destruct (loadPpk service pair decryptionPassword w) as [[keys | err'] w1].
    + intros Hthrow. eapply sameStore_trans; [exact Hstore |].
      eapply merge_throw_sameStore; [| | exact Hthrow]; auto using ppkOptions_keepStore.
    + intros [= _ <-]. exact Hstore.
Qed.

(** X15: the public key of the target is imported first.  When it does not
    import, [reencryptFromPasswordToPublicKey] and [ppkReencryptMasterKey]
    throw the error of the import and leave the world, its trace included,
    as it was: the master key was not read, no private key was decrypted
    and the service was not called. *)
Theorem reencryption_imports_target_first service masterKey
    (pair target : PublicPrivateKeyPair) (decryptionPassword : string) w (err : Exn) :
  NodeRSA.importKey (NodeRSA.setOptions NodeRSA.new nodeRSAOptions) (publicKey target)
    Pkcs1PublicPem = Throw err ->
  reencryptFromPasswordToPublicKey service masterKey decryptionPassword target w
  = (Throw err, w)
  /\ ppkReencryptMasterKey service masterKey pair decryptionPassword target w
     = (Throw err, w).
Proof.
  intros Himport.
  assert (loadPublicKey (publicKey target) w = (Throw err, w)) as Hload
    by (rewrite loadPublicKey_eq, Himport; reflexivity).
  split.
  - unfold reencryptFromPasswordToPublicKey. apply bind_throw. exact Hload.
  - unfold ppkReencryptMasterKey. apply bind_throw. exact Hload.
Qed.

End MoreMasterKeys.

(** * The further properties on the reference collaborators *)

Section MoreWitnesses.

Import Reference Examples.

Lemma reference_GeneratedPairMatches : GeneratedPairMatches runtime rsa.
Proof.
  intros keys0 target public full bits exponent e publicPem privatePem keys.
  subst keys. cbn [NodeRSA.generateKeyPair NodeRSA.exportKey NodeRSA.importKey rsa fst].
  unfold exportKey, importKey. cbn [publicPart privatePart].
  intros [= <-] [= <-]. rewrite !stripPrefix_append.
  intros [= <-] [= <-].
  eapply reference_decryptsFor; reflexivity.
Qed.

Lemma reference_pairB :
  KeyPairWithPassword runtime rsa service pairB "abc123" keysB publicKeysB.
Proof.
  split; [reflexivity |]. split.
  - exists "PRIVATE D-material". split; reflexivity.
  - apply (reference_decryptsFor _ _ "D-material"); reflexivity.
Qed.

Lemma decrypt_malformed_envelope_witness :
  let handlerA := ppkEncryptionHandler (id pairA) keysA in
  decrypt handlerA (context handlerA) "garbage" "" emptyWorld
  = (Throw (SyntaxError "Unexpected token in JSON"), emptyWorld)
  /\ decrypt handlerA (context handlerA) (stringify (JObj [("ciphertext", JStr cipherA)])) ""
       emptyWorld
     = (Throw (Error "Needs private key undefined to decrypt, but using b-nano-id"),
        emptyWorld).
Proof.
  split.
  - apply (proj1 (decrypt_malformed_envelope (id pairA) keysA "garbage" "" emptyWorld)).
    vm_compute. reflexivity.
  - apply (proj1 (proj2 (proj2
             (decrypt_malformed_envelope (id pairA) keysA
                (stringify (JObj [("ciphertext", JStr cipherA)])) "" emptyWorld)))
             [("ciphertext", JStr cipherA)]);
      vm_compute; reflexivity.
Defined.

Lemma public_handler_encrypts_for_full_handler_witness :
  let encryptionHandler := ppkEncryptionHandler (id pairA) publicKeysA in
  let decryptionHandler := ppkEncryptionHandler (id pairA) keysA in
  exists (env : string) (w2 : World),
    encrypt encryptionHandler (context encryptionHandler) "48656c6c6f" "" emptyWorld
    = (Ok env, w2) /\
    forall (password2 : string) (w3 : World),
      decrypt decryptionHandler (context decryptionHandler) env password2 w3
      = (Ok "48656c6c6f", logCall CallRsaDecrypt w3).
Proof.
  exact (proj2 (proj2
           (public_handler_encrypts_for_full_handler reference_JSONRoundTrip service pairA
              "abc123" keysA publicKeysA reference_pairA emptyWorld))
           "48656c6c6f" "" emptyWorld).
Defined.

Lemma generated_pair_loads_witness :
  exists full public : Key,
    KeyPairWithPassword runtime rsa service pairA "abc123" full public.
Proof.
  apply (generated_pair_loads service (reference_PasswordRoundTrip SJCL4)
           reference_ExportedKeysImport reference_GeneratedPairMatches "abc123" emptyWorld
           pairA (generateKeyPair service "abc123" emptyWorld).2).
  vm_compute. reflexivity.
Defined.

Lemma privateKey_round_trip_witness :
  let key := {| encryptionMethod := SJCL4; ciphertext := "abc123|PRIVATE A-material" |} in
  encryptionMethod key = SJCL4 /\
  forall w2 : World,
    decryptPrivateKey service key "abc123" w2
    = (Ok "PRIVATE A-material", logCall (CallServiceDecrypt SJCL4) w2).
Proof.
  apply (privateKey_round_trip service (reference_PasswordRoundTrip SJCL4) "abc123"
           "PRIVATE A-material" emptyWorld _
           (setRng 1%N (logCall (CallServiceEncrypt SJCL4) emptyWorld))).
  vm_compute. reflexivity.
Defined.

Lemma ppkPasswordIsValid_corrupt_key_witness :
  ppkPasswordIsValid service (Some corruptPairA) "abc123" emptyWorld = (Ok false, emptyWorld).
Proof.
  apply (proj1 (ppkPasswordIsValid_corrupt_key service corruptPairA "abc123" emptyWorld)
           (Error "Unsupported key format")).
  vm_compute. reflexivity.
Defined.

Lemma generateKeyPairAndSave_overwrites_witness :
  let outcome := generateKeyPairAndSave service 1%positive "abc123" syncWorldWithLocalPpk in
  outcome.1 = Ok pairA /\
  syncInfos outcome.2 !! 1%positive
  = Some {| ppk := Some pairA; masterKeys := [1%positive]; activeMasterKeyId := "mk1" |} /\
  (forall l : loc, l <> 1%positive ->
     syncInfos outcome.2 !! l = syncInfos syncWorldWithLocalPpk !! l) /\
  savedLocalSyncInfo outcome.2
  = ([] ++ [{| ppk := Some pairA; masterKeys := [1%positive];
               activeMasterKeyId := "mk1" |}])%list /\
  entities outcome.2 = entities syncWorldWithLocalPpk.
Proof.
  apply (proj1 (generateKeyPairAndSave_overwrites service 1%positive
                  (withPpk localInfoA pairB) "abc123" syncWorldWithLocalPpk eq_refl)
           pairA (generateKeyPair service "abc123" syncWorldWithLocalPpk).2).
  vm_compute. reflexivity.
Defined.

Lemma setPpkIfNotExist_idempotent_witness :
  let w1 := (setPpkIfNotExist getActiveMasterKey getMasterPassword service
               1%positive 2%positive syncWorld).2 in
  syncInfos w1 !! 1%positive = Some (withPpk localInfoA pairA)
  /\ setPpkIfNotExist getActiveMasterKey getMasterPassword service 1%positive 2%positive w1
     = (Ok tt, w1).
Proof.
  split; [vm_compute; reflexivity |].
  apply (setPpkIfNotExist_idempotent getActiveMasterKey getMasterPassword service
           1%positive 2%positive syncWorld).
  vm_compute. reflexivity.
Defined.

Lemma setPpkIfNotExist_reads_remoteInfo_last_witness :
  setPpkIfNotExist getActiveMasterKey getMasterPassword service 1%positive nowhere
    syncWorldWithLocalPpk = (Ok tt, syncWorldWithLocalPpk)
  /\ exists message : string,
       setPpkIfNotExist getActiveMasterKey getMasterPassword service 1%positive nowhere
         syncWorld = (Throw (TypeError message), syncWorld).
Proof.
  split.
  - apply (proj1 (setPpkIfNotExist_reads_remoteInfo_last getActiveMasterKey
                    getMasterPassword service 1%positive nowhere
                    (withPpk localInfoA pairB) syncWorldWithLocalPpk eq_refl)).
    vm_compute. eauto.
  - apply (proj2 (setPpkIfNotExist_reads_remoteInfo_last getActiveMasterKey
                    getMasterPassword service 1%positive nowhere localInfoA syncWorld
                    eq_refl));
      vm_compute; reflexivity.
Defined.

Lemma ppkDecryptMasterKeyContent_after_reencryption_witness :
  exists (masterKey1 : loc) (w1 : World),
    reencryptFromPasswordToPublicKey service 1%positive "pw" pairA masterKeyWorld
    = (Ok masterKey1, w1) /\
    (ppkDecryptMasterKeyContent service masterKey1 pairA "abc123" w1).1 = Ok "c0ffee".
Proof.
  apply (ppkDecryptMasterKeyContent_after_reencryption reference_JSONRoundTrip service
           pairA "abc123" keysA publicKeysA reference_pairA).
  vm_compute. reflexivity.
Defined.

Lemma ppkReencryptMasterKey_rotates_witness :
  exists (masterKey' : loc) (w' : World),
    ppkReencryptMasterKey service 3%positive pairA "abc123" pairB publicKeyWorld
    = (Ok masterKey', w') /\
    (ppkDecryptMasterKeyContent service masterKey' pairB "abc123" w').1 = Ok "c0ffee".
Proof.
  apply (ppkReencryptMasterKey_rotates reference_JSONRoundTrip service pairA "abc123"
           pairB "abc123" keysB publicKeysB reference_pairB).
  vm_compute. reflexivity.
Defined.

Lemma ppkDecryptMasterKeyContent_rejects_other_key_pair_witness :
  ppkDecryptMasterKeyContent service 3%positive pairB "abc123" publicKeyWorld
  = (Throw (Error "Needs private key b-nano-id to decrypt, but using e-nano-id"),
     logCall (CallServiceDecrypt SJCL4) publicKeyWorld).
Proof.
  apply (ppkDecryptMasterKeyContent_rejects_other_key_pair reference_JSONRoundTrip service
           1%positive "pw" pairA pairA pairB "abc123" masterKeyWorld 3%positive
           publicKeyWorld keysB).
  - left. vm_compute. reflexivity.
  - vm_compute. discriminate.
  - vm_compute. reflexivity.
Defined.

Lemma reencryption_failure_changes_nothing_witness :
  sameStore masterKeyWorld
    (reencryptFromPasswordToPublicKey service 1%positive "bad" pairA masterKeyWorld).2.
Proof.
  apply (proj1 (reencryption_failure_changes_nothing service 1%positive masterKeyWorld
                  (Error "Invalid password")
                  (reencryptFromPasswordToPublicKey service 1%positive "bad" pairA
                     masterKeyWorld).2) "bad" pairA).
  vm_compute. reflexivity.
Defined.

Lemma reencryption_imports_target_first_witness :
  reencryptFromPasswordToPublicKey service 1%positive "pw" corruptPairA masterKeyWorld
  = (Throw (Error "Unsupported key format"), masterKeyWorld)
  /\ ppkReencryptMasterKey service 3%positive pairA "abc123" corruptPairA publicKeyWorld
     = (Throw (Error "Unsupported key format"), publicKeyWorld).
Proof.
  split.
  - refine (proj1 (reencryption_imports_target_first service 1%positive pairA corruptPairA
                     "pw" masterKeyWorld (Error "Unsupported key format") _)).
    vm_compute. reflexivity.
  - refine (proj2 (reencryption_imports_target_first service 3%positive pairA corruptPairA
                     "abc123" publicKeyWorld (Error "Unsupported key format") _)).
    vm_compute. reflexivity.
Defined.

End MoreWitnesses.

(** * An envelope whose id does not convert to a string *)

Section ObjectId.

Import Reference.

(** The envelope [{ppkId: {toString: null}, scheme, ciphertext}] parses,
    its [ppkId] is not the handler's id, and [decrypt] does not throw the
    key mismatch error: building the message throws a [TypeError]. *)
Lemma decrypt_object_ppkId_throws_TypeError :
  let handlerA := ppkEncryptionHandler (rt := Json.runtime) (id pairA) keysA in
  let text := Json.stringify Json.envelopeWithObjectId in
  JSON_parse (Runtime := Json.runtime) text = Ok Json.envelopeWithObjectId
  /\ getProp Json.envelopeWithObjectId "ppkId" = Ok (JObj [("toString", JNull)])
  /\ JObj [("toString", JNull)] <> JStr (id pairA)
  /\ decrypt handlerA (context handlerA) text "" emptyWorld
     = (Throw (TypeError "Cannot convert object to primitive value"), emptyWorld)
  /\ ~ (exists message : string,
          decrypt handlerA (context handlerA) text "" emptyWorld
          = (Throw (Error message), emptyWorld)).
Proof.
  assert (decrypt (ppkEncryptionHandler (rt := Json.runtime) (id pairA) keysA)
            (context (ppkEncryptionHandler (rt := Json.runtime) (id pairA) keysA))
            (Json.stringify Json.envelopeWithObjectId) "" emptyWorld
          = (Throw (TypeError "Cannot convert object to primitive value"), emptyWorld))
    as Hthrows by (vm_compute; reflexivity).
  cbv zeta. split; [vm_compute; reflexivity |]. split; [reflexivity |].
  split; [discriminate |]. split; [exact Hthrows |].
  intros [message Hmessage]. rewrite Hthrows in Hmessage. discriminate.
Qed.

End ObjectId.
